(** * virtua: the React [List] component and its observer handle

    A shallow embedding of [src/List.tsx] (the React binding: [Item],
    [List], the [ObserverHandle] closure with its resize and intersection
    observer callbacks, the layout effects and the imperative handle) and
    of the Vue [ListItem] component.

    Conventions.
    - JavaScript numbers that hold pixel offsets, sizes, indices and time
      stamps are integers [Z]; no operation of the embedded code divides
      or rounds.
    - A [WeakMap<Element, number>] is a [gmap Element Z] keyed by the
      identity of the DOM node.
    - [store._update(action)] is a synchronous call into the store, which
      lives in [./state]; the embedding records the actions that are
      issued, in order.
    - A style object is a finite map from property names to values. *)

From Stdlib Require Import ZArith Lia Bool String.
From stdpp Require Import gmap strings list fin_maps.

Local Open Scope Z_scope.

(** ** [./utils] *)
Module Utils.

(** Modelled from the spec: [max] and [min] of [./utils] are not part of
    the sources at hand; the spec writes the clamps of the item window
    and of [scrollToIndex] with the usual [max] and [min]. *)
Definition max (a b : Z) : Z := Z.max a b.
Definition min (a b : Z) : Z := Z.min a b.

(** Modelled from the spec: [debounce(fn, ms)] of [./utils] is not part
    of the sources at hand; the spec describes it as "an explicit
    cancellable timer abstraction (start/cancel)".  A debounced function
    is its delay and the state of its timer: a timeout is pending or
    not. *)
Record Debounced : Type := mkDebounced {
  ms : Z;
  pending : bool
}.

(** [debounce(fn, ms)] *)
Definition debounce (ms : Z) : Debounced := {| ms := ms; pending := false |}.

(** Calling the debounced function cancels the pending timeout, if any,
    and starts a new one with the delay of the function. *)
Definition call (d : Debounced) : Debounced := {| ms := ms d; pending := true |}.

(** [_cancel()] *)
Definition cancel (d : Debounced) : Debounced := {| ms := ms d; pending := false |}.

(** The pending timeout expires: the timer is cleared before the function
    runs. *)
Definition expire (d : Debounced) : Debounced := {| ms := ms d; pending := false |}.

End Utils.

(** ** The DOM as the code reads and writes it *)
Module Dom.

(** Identity of a DOM node (the key of a [WeakMap]). *)
Definition Element : Type := positive.

(** The scrollable host container: the two properties the code reads
    and assigns. *)
Record HostElement : Type := mkHost {
  scrollLeft : Z;
  scrollTop : Z
}.

Record DOMRect : Type := mkRect {
  rect_left : Z;
  rect_top : Z;
  rect_right : Z;
  rect_bottom : Z;
  rect_width : Z;
  rect_height : Z
}.

Record ResizeObserverEntry : Type := mkROEntry {
  ro_target : Element;
  contentRect : DOMRect
}.

Record IntersectionObserverEntry : Type := mkIOEntry {
  target : Element;
  time : Z;
  isIntersecting : bool;
  boundingClientRect : DOMRect;
  rootBounds : DOMRect
}.

End Dom.

(** ** [./state]: the interface of the store that [List.tsx] uses *)
Module State.

(** The actions [List.tsx] passes to [store._update].  The index of
    [HANDLE_ITEM_INTERSECTION] is read with [mountedIndexes.get(target)!];
    the assertion is erased at run time, so the field is [None] when the
    lookup yields [undefined]. *)
Inductive Action : Type :=
| HANDLE_SCROLL (_offset : Z)
| HANDLE_ITEM_INTERSECTION (_index : option Z) (_offset : Z)
| UPDATE_VIEWPORT_SIZE (_width _height : Z)
| UPDATE_ITEM_SIZES (_sizes _indexes : list Z)
| UPDATE_CACHE_LENGTH (_length : Z).

Record Jump : Type := mkJump {
  _start : Z;
  _end : Z
}.

(** The getters of [Store] the components subscribe to. *)
Record Store : Type := mkStore {
  _getItemOffset : Z -> Z;
  _getIsItemHeightUnCached : Z -> bool;
  _getScrollSize : Z;
  _getStartIndex : Z;
  _getEndIndex : Z;
  _getViewportWidth : Z;
  _getViewportHeight : Z;
  _getViewportSize : Z;
  _getJump : Jump
}.

Definition is_HANDLE_ITEM_INTERSECTION (a : Action) : bool :=
  match a with HANDLE_ITEM_INTERSECTION _ _ => true | _ => false end.
Definition is_UPDATE_ITEM_SIZES (a : Action) : bool :=
  match a with UPDATE_ITEM_SIZES _ _ => true | _ => false end.

End State.

Import Dom State.

(** A JavaScript number used as a condition: [0] is falsy. *)
Definition truthy (z : Z) : bool := negb (z =? 0).

(** ** The observer handle of [List] *)
Module Handle.

(** The variables the closure of [handleRef.current] captures and
    mutates, and the debounced [requestSync] that [_init] creates. *)
Record t : Type := mk {
  viewedCount : Z;
  mountedIndexes : gmap Element Z;
  viewedIndexes : gmap Element Z;
  requestSync : Utils.Debounced
}.

(** The handle once [_init] has run:
    [requestSync = debounce(..., 200)]. *)
Definition initial : t :=
  {| viewedCount := 0; mountedIndexes := ∅; viewedIndexes := ∅;
     requestSync := Utils.debounce 200 |}.

Definition set_requestSync (d : Utils.Debounced) (h : t) : t :=
  {| viewedCount := viewedCount h; mountedIndexes := mountedIndexes h;
     viewedIndexes := viewedIndexes h; requestSync := d |}.

Section Closure.
(** Props of the enclosing [List] and the wrapper element handed to
    [_init]. *)
Variable isHorizontal : bool.
Variable reverse : bool.
Variable wrapper : Element.

(** The offset [syncViewportToScrollPosition] reads from the root. *)
Definition native_offset (root : HostElement) : Z :=
  if isHorizontal
  then (if reverse then - scrollLeft root else scrollLeft root)
  else (if reverse then - scrollTop root else scrollTop root).

Definition syncViewportToScrollPosition (root : HostElement) : Action :=
  HANDLE_SCROLL (native_offset root).

(** *** [_observe(el, i)] and the function it returns *)
Definition _observe (el : Element) (i : Z) (h : t) : t :=
  {| viewedCount := viewedCount h;
     mountedIndexes := <[el := i]> (mountedIndexes h);
     viewedIndexes := viewedIndexes h;
     requestSync := requestSync h |}.

Definition _unobserve (el : Element) (h : t) : t :=
  match viewedIndexes h !! el with
  | Some _ =>
      {| viewedCount := viewedCount h - 1;
         mountedIndexes := delete el (mountedIndexes h);
         viewedIndexes := delete el (viewedIndexes h);
         requestSync := requestSync h |}
  | None =>
      {| viewedCount := viewedCount h;
         mountedIndexes := delete el (mountedIndexes h);
         viewedIndexes := viewedIndexes h;
         requestSync := requestSync h |}
  end.

(** *** The [ResizeObserver] callback *)

(** The loop variables: the actions issued so far and the two arrays
    being filled. *)
Record ROLoop : Type := mkROLoop {
  ro_issued : list Action;
  resizedItemSizes : list Z;
  resizedItemIndexes : list Z
}.

Definition ro_body (h : t) (st : ROLoop) (entry : ResizeObserverEntry)
  : ROLoop :=
  if decide (ro_target entry = wrapper) then
    {| ro_issued := ro_issued st ++
         [UPDATE_VIEWPORT_SIZE (rect_width (contentRect entry))
                               (rect_height (contentRect entry))];
       resizedItemSizes := resizedItemSizes st;
       resizedItemIndexes := resizedItemIndexes st |}
  else
    match mountedIndexes h !! ro_target entry with
    | Some index =>
        {| ro_issued := ro_issued st;
           resizedItemSizes := resizedItemSizes st ++
             [if isHorizontal then rect_width (contentRect entry)
              else rect_height (contentRect entry)];
           resizedItemIndexes := resizedItemIndexes st ++ [index] |}
    | None => st
    end.

Definition ro_callback (h : t) (entries : list ResizeObserverEntry)
  : list Action :=
  let st := fold_left (ro_body h) entries (mkROLoop [] [] []) in
  if (length (resizedItemSizes st) =? 0)%nat
  then ro_issued st
  else ro_issued st ++
         [UPDATE_ITEM_SIZES (resizedItemSizes st) (resizedItemIndexes st)].

(** *** The [IntersectionObserver] callback *)

(** The state of the [forEach] loop: the handle's variables and
    [latestEntry]. *)
Definition IOLoop : Type := (t * option IntersectionObserverEntry)%type.

(** [(!latestEntry || latestEntry.time < entry.time) &&
     mountedIndexes.has(entry.target)] *)
Definition takes_over (h : t) (latestEntry : option IntersectionObserverEntry)
    (entry : IntersectionObserverEntry) : bool :=
  match latestEntry with
  | None => true
  | Some l => time l <? time entry
  end && bool_decide (is_Some (mountedIndexes h !! target entry)).

(** The enter / exit bookkeeping of one entry. *)
Definition track (h : t) (entry : IntersectionObserverEntry) : t :=
  if isIntersecting entry then
    match mountedIndexes h !! target entry with
    | Some index =>
        {| viewedCount := viewedCount h + 1;
           mountedIndexes := mountedIndexes h;
           viewedIndexes := <[target entry := index]> (viewedIndexes h);
           requestSync := requestSync h |}
    | None => h
    end
  else
    match viewedIndexes h !! target entry with
    | Some _ =>
        {| viewedCount := viewedCount h - 1;
           mountedIndexes := mountedIndexes h;
           viewedIndexes := delete (target entry) (viewedIndexes h);
           requestSync := requestSync h |}
    | None => h
    end.

Definition io_body (st : IOLoop) (entry : IntersectionObserverEntry)
  : IOLoop :=
  let '(h, latestEntry) := st in
  (track h entry,
   if takes_over h latestEntry entry then Some entry else latestEntry).

(** The [_offset] of the anchor update. *)
Definition intersection_offset (e : IntersectionObserverEntry) : Z :=
  if isHorizontal
  then (if reverse
        then rect_right (rootBounds e) - rect_right (boundingClientRect e)
        else rect_left (boundingClientRect e) - rect_left (rootBounds e))
  else (if reverse
        then rect_bottom (rootBounds e) - rect_bottom (boundingClientRect e)
        else rect_top (boundingClientRect e) - rect_top (rootBounds e)).

(** The callback: the handle afterwards and the actions it issued.
    [root] is the host container as it is when the callback runs. *)
Definition io_callback (root : HostElement) (h : t)
    (entries : list IntersectionObserverEntry) : t * list Action :=
  let '(h1, latestEntry) := fold_left io_body entries (h, None) in
  if negb (truthy (viewedCount h1)) then
    (set_requestSync (Utils.call (requestSync h1)) h1,
     [syncViewportToScrollPosition root])
  else
    match latestEntry with
    | Some e =>
        (h1, [HANDLE_ITEM_INTERSECTION (mountedIndexes h1 !! target e)
                                       (intersection_offset e)])
    | None => (h1, [])
    end.

(** *** The timeout of the debounced [requestSync]

    When the pending timeout expires the timer is cleared and the
    debounced function runs: it returns at once while some item is
    viewed, and otherwise issues a scroll update and calls
    [requestSync] again.  Without a pending timeout nothing runs. *)
Definition requestSync_fires (root : HostElement) (h : t) : t * list Action :=
  if Utils.pending (requestSync h) then
    let h0 := set_requestSync (Utils.expire (requestSync h)) h in
    if truthy (viewedCount h0) then (h0, [])
    else (set_requestSync (Utils.call (requestSync h0)) h0,
          [syncViewportToScrollPosition root])
  else (h, []).

(** Successive expiries, one per given state of the root, with the
    actions of all of them. *)
Fixpoint poll (roots : list HostElement) (h : t) : t * list Action :=
  match roots with
  | [] => (h, [])
  | root :: rest =>
      let '(h1, issued1) := requestSync_fires root h in
      let '(h2, issued2) := poll rest h1 in
      (h2, issued1 ++ issued2)
  end.

(** The function [_init] returns: both observers are disconnected and
    the timer is cancelled. *)
Definition _init_cleanup (h : t) : t :=
  set_requestSync (Utils.cancel (requestSync h)) h.

End Closure.
End Handle.

(** ** The React [Item] component *)
Module Item.

Inductive CSSValue : Type :=
| Str (s : string)
| Px (n : Z).

(** A style object. *)
Abbreviation CSSProperties := (gmap string CSSValue).

(** [{...a, ...b}]: the properties of [b] win. *)
Definition spread (a b : CSSProperties) : CSSProperties := b ∪ a.

(** [...(hide && { visibility: "hidden" })]: spreading [false] adds
    nothing. *)
Definition hide_part (hide : bool) : CSSProperties :=
  if hide then {[ "visibility"%string := Str "hidden" ]} else ∅.

Definition axis_part (isHorizontal isReversed : bool) (offset : Z)
  : CSSProperties :=
  if isHorizontal then
    spread
      (<["display"%string := Str "flex"]>
         (<["height"%string := Str "100%"]> {[ "top"%string := Px 0 ]}))
      (if isReversed then {[ "right"%string := Px offset ]}
       else {[ "left"%string := Px offset ]})
  else
    spread
      (<["width"%string := Str "100%"]> {[ "left"%string := Px 0 ]})
      (if isReversed then {[ "bottom"%string := Px offset ]}
       else {[ "top"%string := Px offset ]}).

Definition style_of (offset : Z) (isHorizontal isReversed hide : bool)
  : CSSProperties :=
  spread
    (spread
       (<["margin"%string := Str "0"]>
          (<["padding"%string := Str "0"]>
             {[ "position"%string := Str "absolute" ]}))
       (axis_part isHorizontal isReversed offset))
    (hide_part hide).

(** The style of the [div] that [Item] renders for [_index] against
    [_store]. *)
Definition style (store : Store) (index : Z) (isHorizontal isReversed : bool)
  : CSSProperties :=
  let offset := _getItemOffset store index in
  let hide := _getIsItemHeightUnCached store index in
  style_of offset isHorizontal isReversed hide.

End Item.

(** ** The Vue [ListItem] component *)
Module ListItem.
Import Item.

Record Props : Type := mkProps {
  _index : Z;
  _offset : Z;
  _hide : bool;
  _isHorizontal : bool
}.

(** [offset + "px"] *)
Inductive VueValue : Type :=
| VStr (s : string)
| VNum (n : Z)
| VPx (n : Z).

(** The style object of the render function; [isRTLDocument] is the
    result of the call to [isRTLDocument()] of [../core/environment]. *)
Definition style (isRTLDocument : bool) (props : Props)
  : gmap string VueValue :=
  let isHorizontal := _isHorizontal props in
  let style0 : gmap string VueValue :=
    <["visibility"%string := VStr (if _hide props then "hidden" else "visible")]>
      (<[(if isHorizontal
          then (if isRTLDocument then "right" else "left")
          else "top")%string := VPx (_offset props)]>
         (<[(if isHorizontal then "top" else "left")%string := VStr "0px"]>
            (<[(if isHorizontal then "height" else "width")%string := VStr "100%"]>
               (<["position"%string := VStr "absolute"]>
                  (<["padding"%string := VNum 0]>
                     {[ "margin"%string := VNum 0 ]}))))) in
  if isHorizontal then <["display"%string := VStr "flex"]> style0 else style0.

End ListItem.

(** ** The React [List] component *)
Module ListComponent.

(** A child as [Children.forEach] and [Children.map] hand it to their
    callback. *)
Inductive ReactNode : Type :=
| RNull
| RUndefined
| RBoolean (b : bool)
| RText (s : string)
| RElement (key : option string) (type : string).

(** [e == null || typeof e === "boolean"] *)
Definition isInvalidElement (e : ReactNode) : bool :=
  match e with
  | RNull | RUndefined | RBoolean _ => true
  | RText _ | RElement _ _ => false
  end.

Record ListProps : Type := mkListProps {
  children : list ReactNode;
  itemSize : Z;
  itemMargin : Z;
  horizontal : bool;
  reverse : bool;
  endThreshold : Z;
  onEndReached : bool   (* whether the callback is given *)
}.

(** The [key] of an [Item] as the JSX gives it: [e.key || i].  (The key
    an element of the array ends up with is derived from it by
    [Children.map], which also takes in the position of the child among
    all children; that key is not modelled.) *)
Inductive Key : Type :=
| KeyString (s : string)
| KeyIndex (i : Z).

Definition key_of (e : ReactNode) (i : Z) : Key :=
  match e with
  | RElement (Some k) _ => if String.eqb k "" then KeyIndex i else KeyString k
  | _ => KeyIndex i
  end.

(** The props of a rendered [Item] (handle and store are those of the
    list). *)
Record ItemProps : Type := mkItemProps {
  item_key : Key;
  _element : ReactNode;
  _index : Z;
  _isHorizontal : bool;
  _isReversed : bool
}.

(** What the inner container receives as children:
    [viewportSize !== 0 && items]. *)
Inductive InnerChildren : Type :=
| IFalse
| IItems (items : list ItemProps).

(** The [Item] elements React mounts for it: [false] renders nothing. *)
Definition mounted (c : InnerChildren) : list ItemProps :=
  match c with
  | IFalse => []
  | IItems items => items
  end.

Section Render.
Variable props : ListProps.
Variable store : Store.

Definition isHorizontal : bool := horizontal props.

(** The memoized element count. *)
Fixpoint count_from (i : Z) (cs : list ReactNode) : Z :=
  match cs with
  | [] => i
  | e :: rest =>
      if isInvalidElement e then count_from i rest
      else count_from (i + 1) rest
  end.

Definition count : Z := count_from 0 (children props).

Definition scrollSize : Z := _getScrollSize store.
Definition startIndex : Z := _getStartIndex store.
Definition endIndex : Z := _getEndIndex store.
Definition viewportSize : Z := _getViewportSize store.
Definition jump : Jump := _getJump store.

Definition startIndexWithMargin : Z :=
  Utils.max (startIndex - itemMargin props) 0.
Definition endIndexWithMargin : Z :=
  Utils.min (endIndex + itemMargin props) (count - 1).

(** [Children.map(children, ...)] with the counter [i] of the
    enclosing scope; a callback that returns [undefined] contributes
    nothing. *)
Fixpoint items_from (i : Z) (cs : list ReactNode) : list ItemProps :=
  match cs with
  | [] => []
  | e :: rest =>
      if isInvalidElement e then items_from i rest
      else
        let i := i + 1 in
        if (i <? startIndexWithMargin) || (i >? endIndexWithMargin)
        then items_from i rest
        else
          {| item_key := key_of e i; _element := e; _index := i;
             _isHorizontal := isHorizontal; _isReversed := reverse props |}
          :: items_from i rest
  end.

Definition items : list ItemProps := items_from (-1) (children props).

Definition inner_children : InnerChildren :=
  if negb (viewportSize =? 0) then IItems items else IFalse.

(** The indices of the items the render mounts. *)
Definition mounted_indexes : list Z := map _index (mounted inner_children).

(** *** The layout effect on [jump] *)

(** The scroll property of the axis. *)
Definition scroll_of (root : HostElement) : Z :=
  if isHorizontal then scrollLeft root else scrollTop root.

(** [scrollLeft += d] or [scrollTop += d] *)
Definition scroll_add (d : Z) (root : HostElement) : HostElement :=
  if isHorizontal
  then {| scrollLeft := scrollLeft root + d; scrollTop := scrollTop root |}
  else {| scrollLeft := scrollLeft root; scrollTop := scrollTop root + d |}.

Definition isStartInView : bool := startIndex =? 0.
Definition isEndInView : bool := endIndex - (count - 1) =? 0.

(** The first [if] of the effect. *)
Definition jump_start (root : HostElement) : HostElement :=
  if truthy (_start jump) &&
     negb (isStartInView && (scroll_of root =? 0))
  then scroll_add (_start jump) root
  else root.

(** The second [if] of the effect. *)
Definition jump_end (root : HostElement) : HostElement :=
  if truthy (_end jump) && negb isStartInView && isEndInView
  then scroll_add (_end jump) root
  else root.

(** The effect on [rootRef.current]. *)
Definition jump_effect (current : option HostElement) : option HostElement :=
  match current with
  | Some root => Some (jump_end (jump_start root))
  | None => None
  end.

(** *** The effect on [endIndex] *)

(** What the effect does besides updating the ref: a call of
    [onEndReached], recorded with the value of
    [onEndReachedCalledIndex.current] at the moment of the call. *)
Inductive Call : Type :=
| OnEndReached (calledIndex : Z).

Definition endReached_effect (onEndReachedCalledIndex : Z) : Z * list Call :=
  let endMargin := count - 1 - endIndex in
  if onEndReached props &&
     (endMargin <=? endThreshold props) &&
     (onEndReachedCalledIndex <? count)
  then (count, [OnEndReached count])
  else (onEndReachedCalledIndex, []).

(** *** The imperative handle *)
Definition scrollTo (index : Z) (current : option HostElement)
  : option HostElement :=
  match current with
  | Some root =>
      let offset := _getItemOffset store index in
      let offset :=
        if scrollSize - (offset + viewportSize) <=? 0
        then scrollSize - viewportSize else offset in
      let offset := if reverse props then offset * -1 else offset in
      Some (if isHorizontal
            then {| scrollLeft := offset; scrollTop := scrollTop root |}
            else {| scrollLeft := scrollLeft root; scrollTop := offset |})
  | None => None
  end.

End Render.

(** *** Successive runs of the effect on [endIndex]

    One run per commit in which [endIndex] changed: the props and the
    store snapshot of that render.  The ref starts at [-1] and is
    threaded through the runs; the result pairs every call of
    [onEndReached] with the item count of the render that made it. *)
Fixpoint endReached_runs (ref : Z) (renders : list (ListProps * Store))
  : Z * list (Z * Call) :=
  match renders with
  | [] => (ref, [])
  | (props, store) :: rest =>
      let '(ref1, calls) := endReached_effect props store ref in
      let '(ref2, later) := endReached_runs ref1 rest in
      (ref2, map (fun c => (count props, c)) calls ++ later)
  end.

Definition onEndReachedCalledIndex_initial : Z := -1.

End ListComponent.

(** * Notions used in the statements *)

Import ListComponent.

(** The assignment [scrollTo] ends with. *)
Definition assign_scroll (props : ListProps) (v : Z) (root : HostElement)
  : HostElement :=
  if horizontal props
  then {| scrollLeft := v; scrollTop := scrollTop root |}
  else {| scrollLeft := scrollLeft root; scrollTop := v |}.

(** The calls made by renders whose item count is [c]. *)
Definition calls_at (c : Z) (calls : list (Z * Call)) : list (Z * Call) :=
  filter (fun p => p.1 = c) calls.

(** The observation a batch entry makes of a mounted item: its index and
    its size along the axis. *)
Definition item_observation (isHorizontal : bool) (wrapper : Element)
    (h : Handle.t) (entry : ResizeObserverEntry) : option (Z * Z) :=
  if decide (ro_target entry = wrapper) then None
  else
    index ← Handle.mountedIndexes h !! ro_target entry;
    Some (index,
          if isHorizontal then rect_width (contentRect entry)
          else rect_height (contentRect entry)).

(** The viewport update an entry for the wrapper causes. *)
Definition viewport_update (wrapper : Element) (entry : ResizeObserverEntry)
  : option Action :=
  if decide (ro_target entry = wrapper)
  then Some (UPDATE_VIEWPORT_SIZE (rect_width (contentRect entry))
                                  (rect_height (contentRect entry)))
  else None.

(** The target of the entry is a mounted item. *)
Definition is_mounted (h : Handle.t) (e : IntersectionObserverEntry) : Prop :=
  is_Some (Handle.mountedIndexes h !! target e).

(** How one entry updates [latestEntry]. *)
Definition latest_step (h : Handle.t) (l : option IntersectionObserverEntry)
    (e : IntersectionObserverEntry) : option IntersectionObserverEntry :=
  if Handle.takes_over h l e then Some e else l.

(** [viewedCount] is at least the number of entries of [viewedIndexes]. *)
Definition counts_viewed (h : Handle.t) : Prop :=
  Z.of_nat (size (Handle.viewedIndexes h)) <= Handle.viewedCount h.

(** * Sample inputs *)

(** Three elements around an invalid child, the props of a list of them,
    and a store that reports the range [0..1] and the given viewport
    size. *)
Definition three_children : list ReactNode :=
  [RElement (Some "a") "div"; RBoolean false; RText "b"; RElement None "div"].

Definition sample_props : ListProps :=
  {| children := three_children; itemSize := 40; itemMargin := 6;
     horizontal := false; reverse := false; endThreshold := 0;
     onEndReached := true |}.

Definition sample_store (viewport : Z) : Store :=
  {| _getItemOffset := fun i => 40 * i;
     _getIsItemHeightUnCached := fun i => 2 <=? i;
     _getScrollSize := 120;
     _getStartIndex := 0;
     _getEndIndex := 1;
     _getViewportWidth := 300;
     _getViewportHeight := viewport;
     _getViewportSize := viewport;
     _getJump := {| _start := 0; _end := 0 |} |}.

(** A store for the same list, scrolled to its end, with a pending jump. *)
Definition store_at_end : Store :=
  {| _getItemOffset := fun i => 40 * i;
     _getIsItemHeightUnCached := fun _ => false;
     _getScrollSize := 120;
     _getStartIndex := 1;
     _getEndIndex := 2;
     _getViewportWidth := 300;
     _getViewportHeight := 80;
     _getViewportSize := 80;
     _getJump := {| _start := 12; _end := -5 |} |}.

(** Two mounted items. *)
Definition item_A : Element := 1%positive.
Definition item_B : Element := 2%positive.
Definition unmounted_X : Element := 3%positive.

Definition root_bounds : DOMRect :=
  {| rect_left := 0; rect_top := 100; rect_right := 300; rect_bottom := 500;
     rect_width := 300; rect_height := 400 |}.

(** The rectangle of an item of height 40 whose top is at [top]. *)
Definition item_rect (top : Z) : DOMRect :=
  {| rect_left := 0; rect_top := top; rect_right := 300; rect_bottom := top + 40;
     rect_width := 300; rect_height := 40 |}.

Definition io_entry (el : Element) (t : Z) (intersecting : bool) (top : Z)
  : IntersectionObserverEntry :=
  {| target := el; time := t; isIntersecting := intersecting;
     boundingClientRect := item_rect top; rootBounds := root_bounds |}.

Definition scrolled_root : HostElement := {| scrollLeft := 0; scrollTop := 720 |}.

(** Items [A] and [B] mounted at the indices [0] and [1], none viewed. *)
Definition two_mounted : Handle.t :=
  Handle._observe item_B 1 (Handle._observe item_A 0 Handle.initial).

(** The same with [B] viewed. *)
Definition B_viewed : Handle.t :=
  (Handle.io_callback false false scrolled_root two_mounted
     [io_entry item_B 1 true 140]).1.

(** * The handle over time, and the styles of the containers *)

(** What happens to the handle of a mounted list: an item is observed
    ([_observe(el, i)]), the function [_observe] returned runs, the
    intersection observer delivers a batch, the timeout of [requestSync]
    expires, the function [_init] returned runs.  The events that read the
    host container carry its state at that moment. *)
Inductive HandleEvent : Type :=
| Observed (el : Element) (i : Z)
| Unobserved (el : Element)
| Intersections (root : HostElement) (entries : list IntersectionObserverEntry)
| Expired (root : HostElement)
| TornDown.

Definition handle_step (isHorizontal reverse : bool) (h : Handle.t)
    (ev : HandleEvent) : Handle.t * list Action :=
  match ev with
  | Observed el i => (Handle._observe el i h, [])
  | Unobserved el => (Handle._unobserve el h, [])
  | Intersections root entries =>
      Handle.io_callback isHorizontal reverse root h entries
  | Expired root => Handle.requestSync_fires isHorizontal reverse root h
  | TornDown => (Handle._init_cleanup h, [])
  end.

(** The events in order, with all the actions issued. *)
Fixpoint handle_run (isHorizontal reverse : bool) (evs : list HandleEvent)
    (h : Handle.t) : Handle.t * list Action :=
  match evs with
  | [] => (h, [])
  | ev :: rest =>
      let '(h1, issued1) := handle_step isHorizontal reverse h ev in
      let '(h2, issued2) := handle_run isHorizontal reverse rest h1 in
      (h2, issued1 ++ issued2)
  end.

(** Every viewed node is a mounted one. *)
Definition viewed_are_mounted (h : Handle.t) : Prop :=
  forall el, is_Some (Handle.viewedIndexes h !! el) ->
             is_Some (Handle.mountedIndexes h !! el).

(** A rectangle whose far edges are its near edges plus its extent. *)
Definition rect_consistent (r : DOMRect) : Prop :=
  rect_right r = rect_left r + rect_width r /\
  rect_bottom r = rect_top r + rect_height r.

(** The children that count as items. *)
Definition valid_children (cs : list ReactNode) : list ReactNode :=
  filter (fun e => isInvalidElement e = false) cs.

(** The same props with other children. *)
Definition with_children (cs : list ReactNode) (props : ListProps) : ListProps :=
  {| children := cs; itemSize := itemSize props; itemMargin := itemMargin props;
     horizontal := horizontal props; reverse := reverse props;
     endThreshold := endThreshold props; onEndReached := onEndReached props |}.

(** The props an [Item] receives from the list, handle and store apart;
    the [key] is not among the props of a component. *)
Definition received_props (it : ItemProps) : ReactNode * Z * bool * bool :=
  (_element it, _index it, _isHorizontal it, _isReversed it).

(** The item counts at which [onEndReached] was called. *)
Definition call_counts (calls : list (Z * Call)) : list Z := calls.*1.

(** A list of integers that increases strictly and stays above [lo]. *)
Fixpoint increasing_from (lo : Z) (l : list Z) : Prop :=
  match l with
  | [] => True
  | x :: rest => lo < x /\ increasing_from x rest
  end.

(** The style of the inner container of [List], the [div] that holds the
    items; [innerStyle] is the [innerStyle] prop, an empty object when it
    is not given. *)
Definition crampedScrollSize (store : Store) : Z :=
  if scrollSize store >=? viewportSize store
  then scrollSize store else viewportSize store.

Definition inner_style (props : ListProps) (store : Store)
    (innerStyle : gmap string Item.CSSValue) : gmap string Item.CSSValue :=
  let isHorizontal := isHorizontal props in
  let cramped := Item.Px (crampedScrollSize store) in
  Item.spread
    (<["position"%string := Item.Str "relative"]>
       (<["width"%string := if isHorizontal then cramped else Item.Str "100%"]>
          (<["height"%string := if isHorizontal then Item.Str "100%" else cramped]>
             (<["minWidth"%string := if isHorizontal then cramped else Item.Str "100%"]>
                {[ "minHeight"%string :=
                     if isHorizontal then Item.Str "100%" else cramped ]}))))
    innerStyle.

(** The names of the size properties along the scroll axis. *)
Definition axis_size_keys (isHorizontal : bool) : list string :=
  if isHorizontal then ["width"; "minWidth"]%string
  else ["height"; "minHeight"]%string.

(** * Properties *)

(** ** The imperative handle *)
Section ScrollTo.
Variable props : ListProps.
Variable store : Store.

(** C1. [scrollTo(index)] on a mounted list assigns to [scrollLeft]
    (horizontal) or [scrollTop] (vertical) of the host container the
    offset [getItemOffset(index)], replaced by
    [totalSize - viewportExtent] whenever
    [offset + viewportExtent >= totalSize] (which is
    [min(offset, totalSize - viewportExtent)]), and negated when the
    layout is reversed; the other scroll property is left as it is. *)
Theorem scrollTo_issues_clamped_offset (index : Z) (root : HostElement) :
  let offset := _getItemOffset store index in
  let totalSize := scrollSize store in
  let viewportExtent := viewportSize store in
  let clamped :=
    if decide (offset + viewportExtent >= totalSize)
    then totalSize - viewportExtent else offset in
  let issued := if reverse props then - clamped else clamped in
  clamped = Z.min offset (totalSize - viewportExtent) /\
  scrollTo props store index (Some root)
    = Some (assign_scroll props issued root).
Proof.
  cbv zeta. split.
  - case_decide; lia.
  - unfold scrollTo, assign_scroll, isHorizontal.
    assert (Hclamp :
      (if scrollSize store - (_getItemOffset store index + viewportSize store) <=? 0
       then scrollSize store - viewportSize store
       else _getItemOffset store index)
      = (if decide (_getItemOffset store index + viewportSize store >= scrollSize store)
         then scrollSize store - viewportSize store
         else _getItemOffset store index)).
    { destruct (Z.leb_spec (scrollSize store - (_getItemOffset store index + viewportSize store)) 0);
        case_decide; lia. }
    rewrite Hclamp.
    destruct (reverse props); [|reflexivity].
    replace ((if decide (_getItemOffset store index + viewportSize store >= scrollSize store)
              then scrollSize store - viewportSize store
              else _getItemOffset store index) * -1)
      with (- (if decide (_getItemOffset store index + viewportSize store >= scrollSize store)
               then scrollSize store - viewportSize store
               else _getItemOffset store index)) by lia.
    reflexivity.
Qed.

(** Before the root is mounted the handle does nothing. *)
Lemma scrollTo_unmounted (index : Z) : scrollTo props store index None = None.
Proof. reflexivity. Qed.

End ScrollTo.

(** Items of size 40 in a viewport of 80 over a content of 120: the first
    item is reached at its offset, the last one at the end of the
    content. *)
Example scrollTo_sample :
  scrollTo sample_props (sample_store 80) 0 (Some scrolled_root)
    = Some {| scrollLeft := 0; scrollTop := 0 |} /\
  scrollTo sample_props (sample_store 80) 2 (Some scrolled_root)
    = Some {| scrollLeft := 0; scrollTop := 40 |}.
Proof. split; reflexivity. Qed.

(** ** The layout effect on [jump] *)
Section JumpEffect.
Variable props : ListProps.
Variable store : Store.

Lemma scroll_add_0 (root : HostElement) : scroll_add props 0 root = root.
Proof.
  unfold scroll_add. destruct root as [l t0]; simpl.
  destruct (isHorizontal props); f_equal; lia.
Qed.

Lemma scroll_of_scroll_add (d : Z) (root : HostElement) :
  scroll_of props (scroll_add props d root) = scroll_of props root + d.
Proof.
  unfold scroll_of, scroll_add. destruct (isHorizontal props); reflexivity.
Qed.

Lemma truthy_false (z : Z) : truthy z = false -> z = 0.
Proof. unfold truthy. destruct (Z.eqb_spec z 0); [done | discriminate]. Qed.

(** C2. The first step of the effect adds [jump._start] to the native
    scroll offset of the host container, except when [startIndex] is [0]
    and that offset is exactly [0]: then the container is left as it
    is.  The effect on a mounted root is this step followed by the step
    of the end correction. *)
Theorem jump_start_correction (root : HostElement) :
  (startIndex store = 0 /\ scroll_of props root = 0 ->
     jump_start props store root = root) /\
  (~ (startIndex store = 0 /\ scroll_of props root = 0) ->
     jump_start props store root = scroll_add props (_start (jump store)) root /\
     scroll_of props (jump_start props store root)
       = scroll_of props root + _start (jump store)) /\
  jump_effect props store (Some root)
    = Some (jump_end props store (jump_start props store root)).
Proof.
  assert (Hstep : ~ (startIndex store = 0 /\ scroll_of props root = 0) ->
     jump_start props store root = scroll_add props (_start (jump store)) root).
  { intros Hn. unfold jump_start, isStartInView.
    destruct (truthy (_start (jump store))) eqn:Ht; simpl.
    - destruct (Z.eqb_spec (startIndex store) 0) as [H0|H0]; simpl; [|done].
      destruct (Z.eqb_spec (scroll_of props root) 0) as [H1|H1]; simpl; [|done].
      exfalso. apply Hn. done.
    - apply truthy_false in Ht. rewrite Ht. by rewrite scroll_add_0. }
  split; [|split].
  - intros [H0 H1]. unfold jump_start, isStartInView.
    rewrite H0, H1. simpl. by rewrite andb_false_r.
  - intros Hn. split; [by apply Hstep|].
    rewrite (Hstep Hn). apply scroll_of_scroll_add.
  - reflexivity.
Qed.

(** C3. The second step of the effect adds [jump._end] to the native
    scroll offset exactly when [endIndex] is [count - 1] and
    [startIndex] is not [0]; in every other configuration of the window
    it leaves the container as the first step left it. *)
Theorem jump_end_correction (root : HostElement) :
  (endIndex store = count props - 1 /\ startIndex store <> 0 ->
     jump_end props store root = scroll_add props (_end (jump store)) root /\
     scroll_of props (jump_end props store root)
       = scroll_of props root + _end (jump store)) /\
  (~ (endIndex store = count props - 1 /\ startIndex store <> 0) ->
     jump_end props store root = root).
Proof.
  unfold jump_end, isStartInView, isEndInView. split.
  - intros [He Hs].
    assert (Heq : jump_end props store root
                  = scroll_add props (_end (jump store)) root).
    { unfold jump_end, isStartInView, isEndInView.
      destruct (truthy (_end (jump store))) eqn:Ht; simpl.
      - destruct (Z.eqb_spec (startIndex store) 0); [done|]. simpl.
        destruct (Z.eqb_spec (endIndex store - (count props - 1)) 0); [done | lia].
      - apply truthy_false in Ht. rewrite Ht. by rewrite scroll_add_0. }
    unfold jump_end, isStartInView, isEndInView in Heq.
    rewrite Heq. split; [done | apply scroll_of_scroll_add].
  - intros Hn.
    destruct (Z.eqb_spec (startIndex store) 0) as [H0|H0]; simpl.
    + by rewrite andb_false_r.
    + rewrite andb_true_r.
      destruct (Z.eqb_spec (endIndex store - (count props - 1)) 0) as [H1|H1].
      * exfalso. apply Hn. split; [lia | done].
      * by rewrite andb_false_r.
Qed.

(** Before the root is mounted the effect does nothing. *)
Lemma jump_effect_unmounted : jump_effect props store None = None.
Proof. reflexivity. Qed.

End JumpEffect.

(** With the window at the end of the list and not at its start, both
    corrections are added: 720 + 12 - 5. *)
Example jump_effect_sample :
  jump_effect sample_props store_at_end (Some scrolled_root)
    = Some {| scrollLeft := 0; scrollTop := 727 |}.
Proof. reflexivity. Qed.

(** ** The rendered item window *)
Section Window.
Variable props : ListProps.
Variable store : Store.

Lemma count_from_shift (cs : list ReactNode) (i : Z) :
  count_from i cs = i + count_from 0 cs.
Proof.
  revert i. induction cs as [|e rest IH]; intros i; simpl; [lia|].
  destruct (isInvalidElement e); [apply IH|].
  rewrite (IH (i + 1)), (IH (0 + 1)). lia.
Qed.

Lemma count_from_nonneg (cs : list ReactNode) : 0 <= count_from 0 cs.
Proof.
  induction cs as [|e rest IH]; simpl; [lia|].
  destruct (isInvalidElement e); [done|].
  rewrite count_from_shift. lia.
Qed.

(** The indices of the items built from the children [cs] when the
    counter stands at [i]: the part of the window above [i] that the
    valid children of [cs] reach. *)
Lemma items_from_indexes (cs : list ReactNode) (i : Z) :
  let lo := Z.max (startIndexWithMargin props store) (i + 1) in
  let hi := Z.min (endIndexWithMargin props store) (i + count_from 0 cs) in
  map _index (items_from props store i cs) = seqZ lo (hi - lo + 1).
Proof.
  revert i. induction cs as [|e rest IH]; intros i; cbv zeta; simpl.
  - rewrite seqZ_nil; [done | lia].
  - destruct (isInvalidElement e); [apply IH|].
    pose proof (count_from_nonneg rest) as Hn.
    rewrite (count_from_shift rest (0 + 1)).
    specialize (IH (i + 1)). cbv zeta in IH.
    destruct (Z.ltb_spec (i + 1) (startIndexWithMargin props store)) as [Hlo|Hlo];
      simpl.
    { rewrite IH. f_equal; lia. }
    destruct (Z.gtb_spec (i + 1) (endIndexWithMargin props store)) as [Hhi|Hhi].
    { rewrite IH. rewrite !seqZ_nil; [done | lia | lia]. }
    simpl. rewrite IH.
    rewrite (seqZ_cons (Z.max (startIndexWithMargin props store) (i + 1)));
      [|lia].
    f_equal; [lia|]. f_equal; lia.
Qed.

(** What [items] holds, whatever the viewport: the indices of the
    window, in increasing order. *)
Lemma items_indexes :
  let lo := Z.max (startIndex store - itemMargin props) 0 in
  let hi := Z.min (endIndex store + itemMargin props) (count props - 1) in
  map _index (items props store) = seqZ lo (hi - lo + 1).
Proof.
  cbv zeta. unfold items. rewrite items_from_indexes.
  unfold startIndexWithMargin, endIndexWithMargin, Utils.max, Utils.min, count.
  pose proof (count_from_nonneg (children props)).
  f_equal; lia.
Qed.

(** C8, as the code has it: in a render with at least one item and a
    viewport size other than [0], the indices of the mounted items are,
    in increasing order and without repetition, those of the window
    from [max(startIndex - itemMargin, 0)] to
    [min(endIndex + itemMargin, n - 1)]; an index is mounted exactly
    when it lies in the window, and then it lies in [0, n - 1]. *)
Theorem mounted_indexes_window :
  1 <= count props ->
  viewportSize store <> 0 ->
  let lo := Z.max (startIndex store - itemMargin props) 0 in
  let hi := Z.min (endIndex store + itemMargin props) (count props - 1) in
  mounted_indexes props store = seqZ lo (hi - lo + 1) /\
  (forall i : Z, i ∈ mounted_indexes props store <-> lo <= i <= hi) /\
  (forall i : Z, i ∈ mounted_indexes props store -> 0 <= i <= count props - 1).
Proof.
  intros Hn Hv. cbv zeta.
  assert (Heq : mounted_indexes props store
                = map _index (items props store)).
  { unfold mounted_indexes, inner_children.
    destruct (Z.eqb_spec (viewportSize store) 0); [done | reflexivity]. }
  rewrite Heq, items_indexes. cbv zeta.
  split; [done|]. split.
  - intros i. rewrite elem_of_seqZ. lia.
  - intros i. rewrite elem_of_seqZ. lia.
Qed.

(** C10. When the viewport size the store reports is [0], the inner
    container receives [false] instead of the items and no item is
    mounted, whatever the range and the children. *)
Theorem zero_viewport_mounts_nothing :
  viewportSize store = 0 ->
  inner_children props store = IFalse /\
  mounted (inner_children props store) = [] /\
  mounted_indexes props store = [].
Proof.
  intros Hv. unfold mounted_indexes, inner_children. rewrite Hv. done.
Qed.

End Window.

Lemma mounted_indexes_window_witness :
  1 <= count sample_props /\
  viewportSize (sample_store 80) <> 0 /\
  mounted_indexes sample_props (sample_store 80) = [0; 1; 2].
Proof.
  assert (H1 : 1 <= count sample_props) by (vm_compute; discriminate).
  assert (H2 : viewportSize (sample_store 80) <> 0) by (vm_compute; discriminate).
  split; [exact H1|]. split; [exact H2|].
  exact (proj1 (mounted_indexes_window sample_props (sample_store 80) H1 H2)).
Defined.

(** At a viewport size of [0] the same render mounts nothing, although the
    window computed from the range holds the indices [0], [1] and [2]. *)
Lemma mounted_indexes_zero_viewport :
  count sample_props = 3 /\
  viewportSize (sample_store 0) = 0 /\
  map _index (items sample_props (sample_store 0)) = [0; 1; 2] /\
  mounted_indexes sample_props (sample_store 0) = [] /\
  ~ (forall i : Z, i ∈ mounted_indexes sample_props (sample_store 0) <->
       Z.max (startIndex (sample_store 0) - itemMargin sample_props) 0 <= i
       <= Z.min (endIndex (sample_store 0) + itemMargin sample_props)
                (count sample_props - 1)).
Proof.
  repeat split; try reflexivity.
  intros H. specialize (H 0). destruct H as [_ H].
  assert (Hin : 0 ∈ mounted_indexes sample_props (sample_store 0)).
  { apply H. vm_compute. split; discriminate. }
  vm_compute in Hin. by apply elem_of_nil in Hin.
Qed.

Lemma zero_viewport_mounts_nothing_witness :
  viewportSize (sample_store 0) = 0 /\
  items sample_props (sample_store 0) <> [] /\
  inner_children sample_props (sample_store 0) = IFalse /\
  mounted (inner_children sample_props (sample_store 0)) = [] /\
  mounted_indexes sample_props (sample_store 0) = [].
Proof.
  split; [reflexivity|]. split; [vm_compute; discriminate|].
  exact (zero_viewport_mounts_nothing sample_props (sample_store 0) eq_refl).
Defined.

(** ** The effect on [endIndex] *)
Section EndReached.

(** One run, by cases on its guard. *)
Lemma endReached_effect_cases (props : ListProps) (store : Store) (ref : Z) :
  (onEndReached props = true /\
   count props - 1 - endIndex store <= endThreshold props /\
   ref < count props ->
     endReached_effect props store ref
       = (count props, [OnEndReached (count props)])) /\
  (~ (onEndReached props = true /\
      count props - 1 - endIndex store <= endThreshold props /\
      ref < count props) ->
     endReached_effect props store ref = (ref, [])).
Proof.
  unfold endReached_effect.
  destruct (onEndReached props); simpl;
    destruct (Z.leb_spec (count props - 1 - endIndex store) (endThreshold props))
      as [Hle|Hle];
    destruct (Z.ltb_spec ref (count props)) as [Hlt|Hlt]; simpl;
    (split; [intros (Hcb & Hm & Hr) | intros Hn]);
    try reflexivity; try discriminate; try lia.
Qed.

(** A run that calls leaves the count in the ref; any run leaves the ref
    at the count or where it was. *)
Lemma endReached_effect_ref (props : ListProps) (store : Store) (ref : Z) :
  let r := endReached_effect props store ref in
  (r.2 = [] /\ r.1 = ref) \/
  (r.2 = [OnEndReached (count props)] /\ r.1 = count props /\ ref < count props).
Proof.
  cbv zeta. unfold endReached_effect.
  destruct (onEndReached props); simpl; [|by left].
  destruct (Z.leb_spec (count props - 1 - endIndex store) (endThreshold props));
    simpl; [|by left].
  destruct (Z.ltb_spec ref (count props)); simpl; [by right | by left].
Qed.

(** Once the ref has reached [c], no later run calls at count [c]. *)
Lemma endReached_runs_guarded (renders : list (ListProps * Store)) (ref c : Z) :
  c <= ref -> calls_at c (endReached_runs ref renders).2 = [].
Proof.
  revert ref. induction renders as [|[props store] rest IH]; intros ref Hc;
    simpl; [done|].
  destruct (endReached_effect_ref props store ref) as [[Hcalls Href]|(Hcalls & Href & Hlt)];
    destruct (endReached_effect props store ref) as [ref1 calls]; simpl in *;
    subst calls ref1.
  - specialize (IH ref Hc).
    destruct (endReached_runs ref rest) as [ref2 later]; simpl in *. exact IH.
  - specialize (IH (count props) ltac:(lia)).
    destruct (endReached_runs (count props) rest) as [ref2 later]; simpl in *.
    unfold calls_at in *. rewrite filter_cons_False; [exact IH | simpl; lia].
Qed.

(** C9. Over any sequence of runs of the effect, from any value of the
    ref, [onEndReached] is called at most once by renders of a given
    item count.  A run calls exactly when the callback is given,
    [count - 1 - endIndex <= endThreshold] and the ref is below the
    count; the ref holds the count when the callback runs and
    afterwards, so a further run at the same count calls nothing. *)
Theorem onEndReached_once_per_count
    (renders : list (ListProps * Store)) (ref c : Z) :
  (length (calls_at c (endReached_runs ref renders).2) <= 1)%nat /\
  (forall (props : ListProps) (store store' : Store) (r : Z),
     (endReached_effect props store r).2 <> [] ->
     onEndReached props = true /\
     count props - 1 - endIndex store <= endThreshold props /\
     r < count props /\
     endReached_effect props store r
       = (count props, [OnEndReached (count props)]) /\
     endReached_effect props store' (endReached_effect props store r).1
       = (count props, [])).
Proof.
  split.
  - revert ref. induction renders as [|[props store] rest IH]; intros ref;
      simpl; [lia|].
    destruct (endReached_effect_ref props store ref) as [[Hcalls Href]|(Hcalls & Href & Hlt)];
      destruct (endReached_effect props store ref) as [ref1 calls]; simpl in *;
      subst calls ref1.
    + specialize (IH ref).
      destruct (endReached_runs ref rest) as [ref2 later]; simpl in *. exact IH.
    + destruct (decide (count props = c)) as [Heq|Hne].
      * pose proof (endReached_runs_guarded rest (count props) c ltac:(lia)) as Hg.
        destruct (endReached_runs (count props) rest) as [ref2 later]; simpl in *.
        unfold calls_at in *. rewrite filter_cons_True; [|done].
        rewrite Hg. simpl. lia.
      * specialize (IH (count props)).
        destruct (endReached_runs (count props) rest) as [ref2 later]; simpl in *.
        unfold calls_at in *. rewrite filter_cons_False; [exact IH | done].
  - intros props store store' r Hcall.
    destruct (endReached_effect_cases props store r) as [Hyes Hno].
    destruct (decide (onEndReached props = true /\
                      count props - 1 - endIndex store <= endThreshold props /\
                      r < count props)) as [Hg|Hg].
    + destruct Hg as (H1 & H2 & H3). repeat split; try done.
      * by apply Hyes.
      * rewrite Hyes by done. simpl.
        destruct (endReached_effect_cases props store' (count props)) as [_ Hno'].
        apply Hno'. lia.
    + rewrite (Hno Hg) in Hcall. done.
Qed.

End EndReached.

(** Three runs for the same three children, the range at the end of the
    list in the first and the last: one call, made by the first run. *)
Example endReached_runs_sample :
  endReached_runs onEndReachedCalledIndex_initial
    [(sample_props, store_at_end); (sample_props, sample_store 80);
     (sample_props, store_at_end)]
  = (3, [(3, OnEndReached 3)]).
Proof. reflexivity. Qed.

(** ** The [ResizeObserver] callback *)
Section Resize.
Variable isHorizontal : bool.
Variable wrapper : Element.
Variable h : Handle.t.

Lemma ro_loop (entries : list ResizeObserverEntry) (st : Handle.ROLoop) :
  fold_left (Handle.ro_body isHorizontal wrapper h) entries st =
    {| Handle.ro_issued :=
         Handle.ro_issued st ++ omap (viewport_update wrapper) entries;
       Handle.resizedItemSizes :=
         Handle.resizedItemSizes st ++ (omap (item_observation isHorizontal wrapper h) entries).*2;
       Handle.resizedItemIndexes :=
         Handle.resizedItemIndexes st ++ (omap (item_observation isHorizontal wrapper h) entries).*1 |}.
Proof.
  revert st. induction entries as [|e rest IH]; intros st; simpl.
  - rewrite !app_nil_r. by destruct st.
  - rewrite IH. unfold Handle.ro_body, viewport_update, item_observation.
    destruct (decide (ro_target e = wrapper)); simpl.
    + by rewrite <- app_assoc.
    + destruct (Handle.mountedIndexes h !! ro_target e); simpl.
      * by rewrite <- !app_assoc.
      * done.
Qed.

Lemma viewport_updates_not_item_sizes (entries : list ResizeObserverEntry) :
  filter (fun a => is_UPDATE_ITEM_SIZES a = true) (omap (viewport_update wrapper) entries) = [].
Proof.
  induction entries as [|e rest IH]; simpl; [done|].
  unfold viewport_update at 1.
  destruct (decide (ro_target e = wrapper)); simpl; [|done].
  rewrite filter_cons_False; [done | simpl; discriminate].
Qed.

(** C6. The callback issues the viewport updates of the batch and then
    at most one [UPDATE_ITEM_SIZES] action: when the batch holds no
    observation of a mounted item, none; otherwise exactly one, at the
    end, whose [_sizes] and [_indexes] list the sizes and the indices of
    all the observations of the batch, in order and position by
    position. *)
Theorem ro_callback_batches (entries : list ResizeObserverEntry) :
  let observations := omap (item_observation isHorizontal wrapper h) entries in
  let issued := Handle.ro_callback isHorizontal wrapper h entries in
  let item_updates := filter (fun a => is_UPDATE_ITEM_SIZES a = true) issued in
  issued = omap (viewport_update wrapper) entries ++
           (if decide (observations = []) then []
            else [UPDATE_ITEM_SIZES observations.*2 observations.*1]) /\
  item_updates = (if decide (observations = []) then []
                  else [UPDATE_ITEM_SIZES observations.*2 observations.*1]) /\
  (length item_updates <= 1)%nat /\
  length observations.*2 = length observations /\
  length observations.*1 = length observations /\
  (forall k index size, observations !! k = Some (index, size) <->
     observations.*1 !! k = Some index /\ observations.*2 !! k = Some size).
Proof.
  cbv zeta.
  assert (Hissued :
    Handle.ro_callback isHorizontal wrapper h entries
    = omap (viewport_update wrapper) entries ++
      (if decide (omap (item_observation isHorizontal wrapper h) entries = []) then []
       else [UPDATE_ITEM_SIZES (omap (item_observation isHorizontal wrapper h) entries).*2
                               (omap (item_observation isHorizontal wrapper h) entries).*1])).
  { unfold Handle.ro_callback. rewrite ro_loop. simpl.
    destruct (omap (item_observation isHorizontal wrapper h) entries) as [|o os] eqn:Ho; simpl.
    - by rewrite app_nil_r.
    - done. }
  split; [exact Hissued|]. rewrite Hissued.
  rewrite filter_app, viewport_updates_not_item_sizes. simpl.
  split; [|split; [|split; [|split]]].
  - case_decide; [done|]. by rewrite filter_cons_True.
  - case_decide; [simpl; lia|]. rewrite filter_cons_True by done. simpl. lia.
  - by rewrite length_fmap.
  - by rewrite length_fmap.
  - intros k index size. rewrite !list_lookup_fmap.
    destruct (omap (item_observation isHorizontal wrapper h) entries !! k) as [[i s]|]; simpl.
    + split; [by intros [= -> ->] | by intros [[= ->] [= ->]]].
    + split; [done | by intros [? _]].
Qed.

End Resize.

(** ** The [IntersectionObserver] callback *)
Section Intersection.
Variable isHorizontal : bool.
Variable reverse : bool.

Abbreviation io_callback := (Handle.io_callback isHorizontal reverse).
Abbreviation intersection_offset := (Handle.intersection_offset isHorizontal reverse).
Abbreviation native_offset := (Handle.native_offset isHorizontal reverse).
Abbreviation requestSync_fires := (Handle.requestSync_fires isHorizontal reverse).
Abbreviation poll := (Handle.poll isHorizontal reverse).

Lemma track_mountedIndexes (h : Handle.t) (e : IntersectionObserverEntry) :
  Handle.mountedIndexes (Handle.track h e) = Handle.mountedIndexes h.
Proof.
  unfold Handle.track.
  destruct (isIntersecting e).
  - by destruct (Handle.mountedIndexes h !! target e).
  - by destruct (Handle.viewedIndexes h !! target e).
Qed.

Lemma tracks_requestSync (entries : list IntersectionObserverEntry) (h : Handle.t) :
  Handle.requestSync (fold_left Handle.track entries h) = Handle.requestSync h.
Proof.
  revert h. induction entries as [|e rest IH]; intros h; simpl; [done|].
  rewrite IH. unfold Handle.track.
  destruct (isIntersecting e).
  - by destruct (Handle.mountedIndexes h !! target e).
  - by destruct (Handle.viewedIndexes h !! target e).
Qed.

Lemma tracks_mountedIndexes (entries : list IntersectionObserverEntry) (h : Handle.t) :
  Handle.mountedIndexes (fold_left Handle.track entries h) = Handle.mountedIndexes h.
Proof.
  revert h. induction entries as [|e rest IH]; intros h; simpl; [done|].
  by rewrite IH, track_mountedIndexes.
Qed.

(** The loop keeps the bookkeeping and [latestEntry] apart: the map of
    mounted items does not change while it runs. *)
Lemma io_loop (entries : list IntersectionObserverEntry) (h h' : Handle.t)
    (l : option IntersectionObserverEntry) :
  Handle.mountedIndexes h' = Handle.mountedIndexes h ->
  fold_left Handle.io_body entries (h', l)
  = (fold_left Handle.track entries h', fold_left (latest_step h) entries l).
Proof.
  revert h' l. induction entries as [|e rest IH]; intros h' l Hm; simpl; [done|].
  rewrite IH by (by rewrite track_mountedIndexes).
  do 2 f_equal. unfold latest_step, Handle.takes_over. by rewrite Hm.
Qed.

(** [latestEntry] after the loop: the first of the entries for mounted
    items that carry the greatest time stamp among them, if there is an
    entry for a mounted item at all. *)
Lemma latest_spec (h : Handle.t) (entries : list IntersectionObserverEntry) :
  match fold_left (latest_step h) entries None with
  | None => forall x, x ∈ entries -> ~ is_mounted h x
  | Some e =>
      is_mounted h e /\
      exists pre post, entries = pre ++ e :: post /\
        (forall x, x ∈ pre -> is_mounted h x -> time x < time e) /\
        (forall x, x ∈ post -> is_mounted h x -> time x <= time e)
  end.
Proof.
  induction entries as [|e entries IH] using rev_ind; simpl.
  - intros x Hx. by apply elem_of_nil in Hx.
  - rewrite fold_left_app. simpl.
    destruct (fold_left (latest_step h) entries None) as [y|] eqn:Hy;
      unfold latest_step at 1, Handle.takes_over.
    + destruct IH as (Hmy & pre & post & -> & Hpre & Hpost).
      destruct (Z.ltb_spec (time y) (time e)) as [Hlt|Hge]; simpl.
      * case_bool_decide as Hme.
        -- split; [exact Hme|]. exists (pre ++ y :: post), []. split; [done|].
           split.
           ++ intros x Hx Hmx. apply elem_of_app in Hx as [Hx|Hx].
              ** specialize (Hpre x Hx Hmx). lia.
              ** apply elem_of_cons in Hx as [->|Hx]; [lia|].
                 specialize (Hpost x Hx Hmx). lia.
           ++ intros x Hx. by apply elem_of_nil in Hx.
        -- split; [exact Hmy|]. exists pre, (post ++ [e]).
           split; [by rewrite <- app_assoc|]. split; [exact Hpre|].
           intros x Hx Hmx. apply elem_of_app in Hx as [Hx|Hx].
           ++ by apply Hpost.
           ++ apply list_elem_of_singleton in Hx as ->. done.
      * split; [exact Hmy|]. exists pre, (post ++ [e]).
        split; [by rewrite <- app_assoc|]. split; [exact Hpre|].
        intros x Hx Hmx. apply elem_of_app in Hx as [Hx|Hx].
        -- by apply Hpost.
        -- apply list_elem_of_singleton in Hx as ->. lia.
    + simpl. case_bool_decide as Hme.
      * split; [exact Hme|]. exists entries, []. split; [done|]. split.
        -- intros x Hx Hmx. exfalso. by apply (IH x).
        -- intros x Hx. by apply elem_of_nil in Hx.
      * intros x Hx. apply elem_of_app in Hx as [Hx|Hx]; [by apply IH|].
        apply list_elem_of_singleton in Hx as ->. exact Hme.
Qed.

Lemma not_truthy (z : Z) : truthy z = false <-> z = 0.
Proof. unfold truthy. destruct (Z.eqb_spec z 0); simpl; split; done. Qed.

(** The count of viewed items when the loop is over is the count the
    callback leaves. *)
Lemma io_callback_viewedCount (root : HostElement) (h : Handle.t)
    (entries : list IntersectionObserverEntry) :
  Handle.viewedCount (io_callback root h entries).1
  = Handle.viewedCount (fold_left Handle.track entries h).
Proof.
  unfold Handle.io_callback. rewrite (io_loop entries h h None eq_refl).
  destruct (truthy (Handle.viewedCount (fold_left Handle.track entries h))); simpl.
  - by destruct (fold_left (latest_step h) entries None).
  - reflexivity.
Qed.

(** C4, as the code has it: when the batch holds an entry for a mounted
    item and the count of viewed items is not [0] once the batch is
    processed, the callback issues exactly one action, an anchor update
    ([HANDLE_ITEM_INTERSECTION]), for the first entry that carries the
    greatest time stamp among the entries for mounted items: the
    entries for mounted items before it are strictly older, those after
    it are not newer. *)
Theorem io_callback_anchor (root : HostElement) (h : Handle.t)
    (entries : list IntersectionObserverEntry) :
  (exists x, x ∈ entries /\ is_mounted h x) ->
  Handle.viewedCount (io_callback root h entries).1 <> 0 ->
  exists pre e post i,
    entries = pre ++ e :: post /\
    Handle.mountedIndexes h !! target e = Some i /\
    (forall x, x ∈ pre -> is_mounted h x -> time x < time e) /\
    (forall x, x ∈ post -> is_mounted h x -> time x <= time e) /\
    (io_callback root h entries).2
      = [HANDLE_ITEM_INTERSECTION (Some i) (intersection_offset e)].
Proof.
  intros (x & Hx & Hmx) Hcount.
  rewrite io_callback_viewedCount in Hcount.
  unfold Handle.io_callback. rewrite (io_loop entries h h None eq_refl).
  destruct (truthy (Handle.viewedCount (fold_left Handle.track entries h))) eqn:Ht;
    simpl; [|by apply not_truthy in Ht].
  pose proof (latest_spec h entries) as Hl.
  destruct (fold_left (latest_step h) entries None) as [e|]; simpl.
  - destruct Hl as ([i Hi] & pre & post & -> & Hpre & Hpost).
    exists pre, e, post, i. rewrite tracks_mountedIndexes, Hi. done.
  - exfalso. by apply (Hl x).
Qed.

End Intersection.

(** ** The count of viewed items *)
Section ViewedCount.
Variable isHorizontal : bool.
Variable reverse : bool.

Abbreviation io_callback := (Handle.io_callback isHorizontal reverse).
Abbreviation intersection_offset := (Handle.intersection_offset isHorizontal reverse).

Lemma counts_viewed_initial : counts_viewed Handle.initial.
Proof. unfold counts_viewed. simpl. rewrite map_size_empty. lia. Qed.

Lemma counts_viewed_observe (el : Element) (i : Z) (h : Handle.t) :
  counts_viewed h -> counts_viewed (Handle._observe el i h).
Proof. done. Qed.

Lemma counts_viewed_unobserve (el : Element) (h : Handle.t) :
  counts_viewed h -> counts_viewed (Handle._unobserve el h).
Proof.
  unfold counts_viewed, Handle._unobserve. intros Hc.
  destruct (Handle.viewedIndexes h !! el) eqn:Hv; simpl; [|done].
  rewrite map_size_delete_Some by done.
  assert (size (Handle.viewedIndexes h) <> 0%nat)
    by (by apply (map_size_ne_0_lookup_2 _ el)).
  lia.
Qed.

Lemma counts_viewed_track (h : Handle.t) (e : IntersectionObserverEntry) :
  counts_viewed h -> counts_viewed (Handle.track h e).
Proof.
  unfold counts_viewed, Handle.track. intros Hc.
  destruct (isIntersecting e).
  - destruct (Handle.mountedIndexes h !! target e); simpl; [|done].
    rewrite map_size_insert.
    destruct (Handle.viewedIndexes h !! target e); simpl; lia.
  - destruct (Handle.viewedIndexes h !! target e) eqn:Hv; simpl; [|done].
    rewrite map_size_delete_Some by done.
    assert (size (Handle.viewedIndexes h) <> 0%nat)
      by (by apply (map_size_ne_0_lookup_2 _ (target e))).
    lia.
Qed.

Lemma counts_viewed_tracks (entries : list IntersectionObserverEntry) (h : Handle.t) :
  counts_viewed h -> counts_viewed (fold_left Handle.track entries h).
Proof.
  revert h. induction entries as [|e rest IH]; intros h Hc; simpl; [done|].
  by apply IH, counts_viewed_track.
Qed.

(** An item stays viewed over entries that are for other targets or
    that report an intersection. *)
Lemma viewed_kept (entries : list IntersectionObserverEntry) (h : Handle.t)
    (el : Element) :
  is_Some (Handle.viewedIndexes h !! el) ->
  Forall (fun x => target x <> el \/ isIntersecting x = true) entries ->
  is_Some (Handle.viewedIndexes (fold_left Handle.track entries h) !! el).
Proof.
  revert h. induction entries as [|e rest IH]; intros h Hv Hall; simpl; [done|].
  apply Forall_cons in Hall as [He Hrest]. apply IH; [|done].
  unfold Handle.track. destruct (isIntersecting e) eqn:Hi.
  - destruct (Handle.mountedIndexes h !! target e); simpl; [|done].
    rewrite lookup_insert. case_decide; [by eexists | done].
  - destruct He as [He|He]; [|discriminate].
    destruct (Handle.viewedIndexes h !! target e); simpl; [|done].
    by rewrite lookup_delete_ne.
Qed.

(** When the batch reports a mounted item as intersecting and no later
    entry of the batch reports the same item as not intersecting, the
    count of viewed items is positive once the batch is processed. *)
Lemma viewed_after_batch (root : HostElement) (h : Handle.t)
    (pre post : list IntersectionObserverEntry) (e : IntersectionObserverEntry) :
  counts_viewed h ->
  is_mounted h e -> isIntersecting e = true ->
  Forall (fun x => target x <> target e \/ isIntersecting x = true) post ->
  0 < Handle.viewedCount (io_callback root h (pre ++ e :: post)).1.
Proof.
  intros Hc [i Hi] He Hpost.
  rewrite io_callback_viewedCount, fold_left_app. simpl.
  set (h1 := fold_left Handle.track pre h).
  assert (Hc1 : counts_viewed (fold_left Handle.track post (Handle.track h1 e))).
  { by apply counts_viewed_tracks, counts_viewed_track, counts_viewed_tracks. }
  assert (Hv : is_Some (Handle.viewedIndexes
                          (fold_left Handle.track post (Handle.track h1 e))
                        !! target e)).
  { apply viewed_kept; [|done].
    unfold Handle.track. rewrite He. subst h1.
    rewrite tracks_mountedIndexes, Hi. simpl.
    rewrite lookup_insert_eq. by eexists. }
  apply map_size_ne_0_lookup_2 in Hv. unfold counts_viewed in Hc1. lia.
Qed.

(** So a batch whose entries have pairwise distinct targets, one of
    them a mounted item reported as intersecting, always yields the
    anchor update. *)
Lemma anchor_for_distinct_targets (root : HostElement) (h : Handle.t)
    (entries : list IntersectionObserverEntry) :
  counts_viewed h ->
  NoDup (map target entries) ->
  (exists x, x ∈ entries /\ is_mounted h x /\ isIntersecting x = true) ->
  Handle.viewedCount (io_callback root h entries).1 <> 0.
Proof.
  intros Hc Hnd (x & Hx & Hmx & Hix).
  apply list_elem_of_split in Hx as (pre & post & ->).
  enough (0 < Handle.viewedCount (io_callback root h (pre ++ x :: post)).1) by lia.
  apply viewed_after_batch; try done.
  rewrite map_app in Hnd. simpl in Hnd.
  apply NoDup_app in Hnd as (_ & _ & Hnd). apply NoDup_cons in Hnd as [Hnot _].
  apply Forall_forall. intros y Hy. left. intros Heq. apply Hnot.
  rewrite <- Heq. apply list_elem_of_fmap. by exists y.
Qed.

End ViewedCount.

(** ** The fallback to the native scroll offset *)
Section Fallback.
Variable isHorizontal : bool.
Variable reverse : bool.

Abbreviation io_callback := (Handle.io_callback isHorizontal reverse).
Abbreviation native_offset := (Handle.native_offset isHorizontal reverse).
Abbreviation requestSync_fires := (Handle.requestSync_fires isHorizontal reverse).
Abbreviation poll := (Handle.poll isHorizontal reverse).

Lemma io_callback_fallback (root : HostElement) (h : Handle.t)
    (entries : list IntersectionObserverEntry) :
  Handle.viewedCount (io_callback root h entries).1 = 0 ->
  (io_callback root h entries).2 = [HANDLE_SCROLL (native_offset root)] /\
  Handle.requestSync (io_callback root h entries).1
    = {| Utils.ms := Utils.ms (Handle.requestSync h); Utils.pending := true |}.
Proof.
  rewrite io_callback_viewedCount. intros H0.
  unfold Handle.io_callback. rewrite (io_loop entries h h None eq_refl).
  apply not_truthy in H0. rewrite H0. simpl.
  by rewrite tracks_requestSync.
Qed.

(** An expiry at which no item is viewed leaves the handle as it was, the
    timer pending again with the delay it had. *)
Lemma requestSync_fires_idle (root : HostElement) (h : Handle.t) :
  Utils.pending (Handle.requestSync h) = true -> Handle.viewedCount h = 0 ->
  requestSync_fires root h = (h, [HANDLE_SCROLL (native_offset root)]).
Proof.
  intros Hp H0. unfold Handle.requestSync_fires. rewrite Hp. simpl.
  apply not_truthy in H0. rewrite H0.
  destruct h as [c m v [d p]]; simpl in *. by subst p.
Qed.

Lemma requestSync_fires_viewed (root : HostElement) (h : Handle.t) :
  Utils.pending (Handle.requestSync h) = true -> Handle.viewedCount h <> 0 ->
  requestSync_fires root h
  = (Handle.set_requestSync (Utils.cancel (Handle.requestSync h)) h, []).
Proof.
  intros Hp H0. unfold Handle.requestSync_fires. rewrite Hp. simpl.
  destruct (truthy (Handle.viewedCount h)) eqn:Ht; [done|].
  by apply not_truthy in Ht.
Qed.

Lemma poll_idle (roots : list HostElement) (h : Handle.t) :
  Utils.pending (Handle.requestSync h) = true -> Handle.viewedCount h = 0 ->
  poll roots h
  = (h, map (fun root => HANDLE_SCROLL (native_offset root)) roots).
Proof.
  intros Hp H0. induction roots as [|root rest IH]; [done|].
  simpl. rewrite (requestSync_fires_idle root h Hp H0), IH. done.
Qed.

(** C5, as the code has it: when an intersection batch leaves the count
    of viewed items at [0], the callback issues one [HANDLE_SCROLL] with
    the offset read from the host container and starts the timer of
    [requestSync], whose delay is the one given to [debounce] (200 for the
    handle [_init] sets up).  Every expiry of the timer at which the
    count is still [0] issues another [HANDLE_SCROLL] and leaves the
    handle as it was, the timer pending again with the same delay,
    however many expiries came before; the first expiry at which the
    count is not [0] issues nothing and leaves no timer pending. *)
Theorem fallback_polling :
  Utils.ms (Handle.requestSync Handle.initial) = 200 /\
  (forall root h entries,
     Handle.viewedCount (io_callback root h entries).1 = 0 ->
     (io_callback root h entries).2 = [HANDLE_SCROLL (native_offset root)] /\
     Handle.requestSync (io_callback root h entries).1
       = {| Utils.ms := Utils.ms (Handle.requestSync h);
            Utils.pending := true |}) /\
  (forall root h,
     Utils.pending (Handle.requestSync h) = true -> Handle.viewedCount h = 0 ->
     requestSync_fires root h = (h, [HANDLE_SCROLL (native_offset root)])) /\
  (forall roots h,
     Utils.pending (Handle.requestSync h) = true -> Handle.viewedCount h = 0 ->
     poll roots h
     = (h, map (fun root => HANDLE_SCROLL (native_offset root)) roots)) /\
  (forall root h,
     Utils.pending (Handle.requestSync h) = true -> Handle.viewedCount h <> 0 ->
     requestSync_fires root h
     = (Handle.set_requestSync (Utils.cancel (Handle.requestSync h)) h, [])).
Proof.
  split; [reflexivity|]. split; [|split; [|split]].
  - apply io_callback_fallback.
  - apply requestSync_fires_idle.
  - apply poll_idle.
  - apply requestSync_fires_viewed.
Qed.

(** After the function [_init] returns has run, no timeout expires. *)
Lemma requestSync_fires_after_cleanup (root : HostElement) (h : Handle.t) :
  requestSync_fires root (Handle._init_cleanup h) = (Handle._init_cleanup h, []).
Proof. reflexivity. Qed.

End Fallback.

Lemma io_callback_anchor_witness :
  let entries := [io_entry item_A 5 true 100; io_entry item_B 9 true 140;
                  io_entry unmounted_X 12 false 900] in
  (exists x, x ∈ entries /\ is_mounted two_mounted x) /\
  Handle.viewedCount
    (Handle.io_callback false false scrolled_root two_mounted entries).1 <> 0 /\
  exists pre e post i,
    entries = pre ++ e :: post /\
    Handle.mountedIndexes two_mounted !! target e = Some i /\
    (forall x, x ∈ pre -> is_mounted two_mounted x -> time x < time e) /\
    (forall x, x ∈ post -> is_mounted two_mounted x -> time x <= time e) /\
    (Handle.io_callback false false scrolled_root two_mounted entries).2
      = [HANDLE_ITEM_INTERSECTION (Some i) (Handle.intersection_offset false false e)].
Proof.
  cbv zeta.
  assert (H1 : exists x,
    x ∈ [io_entry item_A 5 true 100; io_entry item_B 9 true 140;
         io_entry unmounted_X 12 false 900] /\ is_mounted two_mounted x).
  { exists (io_entry item_A 5 true 100). split; [left|].
    exists 0. reflexivity. }
  assert (H2 : Handle.viewedCount
    (Handle.io_callback false false scrolled_root two_mounted
       [io_entry item_A 5 true 100; io_entry item_B 9 true 140;
        io_entry unmounted_X 12 false 900]).1 <> 0).
  { vm_compute. discriminate. }
  split; [exact H1|]. split; [exact H2|].
  exact (io_callback_anchor false false scrolled_root two_mounted _ H1 H2).
Defined.

(** A batch in which [A] enters and leaves again.  The batch holds an
    entry that reports the mounted item [A] as intersecting, yet the count
    of viewed items is back at [0] when the batch is processed: the
    callback issues a scroll update and no anchor update.  And with [B]
    viewed, a batch that only holds an entry for a node that is no longer
    mounted issues nothing at all. *)
Lemma io_callback_without_anchor :
  let batch := [io_entry item_A 5 true 100; io_entry item_A 9 false 60] in
  let issued :=
    (Handle.io_callback false false scrolled_root two_mounted batch).2 in
  (io_entry item_A 5 true 100 ∈ batch /\
   isIntersecting (io_entry item_A 5 true 100) = true /\
   Handle.mountedIndexes two_mounted !! item_A = Some 0) /\
  issued = [HANDLE_SCROLL 720] /\
  filter (fun a => is_HANDLE_ITEM_INTERSECTION a = true) issued = [] /\
  Handle.viewedIndexes B_viewed !! item_B = Some 1 /\
  Handle.mountedIndexes B_viewed !! unmounted_X = None /\
  (Handle.io_callback false false scrolled_root B_viewed
     [io_entry unmounted_X 12 false 900]).2 = [].
Proof.
  cbv zeta. repeat split; try reflexivity. left.
Qed.

(** Two items mounted below the viewport: their first entries report no
    intersection, the fallback starts, and the timer of [requestSync]
    keeps expiring with the count at [0].  Three expiries in a row each
    issue a scroll update and leave the timer pending with the delay of
    200 it had at first; and no number of expiries ends the polling. *)
Lemma fallback_polling_unbounded :
  let h :=
    (Handle.io_callback false false scrolled_root two_mounted
       [io_entry item_A 1 false 900; io_entry item_B 1 false 940]).1 in
  Handle.viewedCount h = 0 /\
  Handle.requestSync h = {| Utils.ms := 200; Utils.pending := true |} /\
  Handle.poll false false [scrolled_root; scrolled_root; scrolled_root] h
    = (h, [HANDLE_SCROLL 720; HANDLE_SCROLL 720; HANDLE_SCROLL 720]) /\
  ~ (exists bound : nat, forall roots : list HostElement,
       (bound < length roots)%nat ->
       Utils.pending (Handle.requestSync (Handle.poll false false roots h).1)
       = false).
Proof.
  cbv zeta. repeat split; try reflexivity.
  intros [bound Hb].
  specialize (Hb (replicate (S bound) scrolled_root)).
  rewrite length_replicate in Hb. specialize (Hb ltac:(lia)).
  rewrite poll_idle in Hb; [discriminate | reflexivity ..].
Qed.

(** Unmounting the only viewed item empties the set of viewed items
    without any action and without starting the timer. *)
Lemma unobserve_last_viewed :
  let h := Handle._unobserve item_B B_viewed in
  Handle.viewedIndexes h = ∅ /\ Handle.viewedCount h = 0 /\
  Utils.pending (Handle.requestSync h) = false.
Proof. cbv zeta. repeat split; reflexivity. Qed.

(** ** Visibility of a mounted item *)
Section Visibility.




End Visibility.


(** * Further properties *)

(** ** The handle over time *)
Section HandleOverTime.
Variable isHorizontal : bool.
Variable reverse : bool.

Abbreviation io_callback := (Handle.io_callback isHorizontal reverse).
Abbreviation intersection_offset := (Handle.intersection_offset isHorizontal reverse).
Abbreviation native_offset := (Handle.native_offset isHorizontal reverse).
Abbreviation requestSync_fires := (Handle.requestSync_fires isHorizontal reverse).
Abbreviation poll := (Handle.poll isHorizontal reverse).

Lemma set_requestSync_same (h : Handle.t) :
  Handle.set_requestSync (Handle.requestSync h) h = h.
Proof. by destruct h. Qed.

(** The callback changes the handle as the bookkeeping of its entries
    does, and may start the timer; the delay stays. *)
Lemma io_callback_shape (root : HostElement) (h : Handle.t)
    (entries : list IntersectionObserverEntry) :
  exists d,
    (io_callback root h entries).1
      = Handle.set_requestSync d (fold_left Handle.track entries h) /\
    Utils.ms d = Utils.ms (Handle.requestSync h).
Proof.
  unfold Handle.io_callback. rewrite (io_loop entries h h None eq_refl).
  destruct (truthy (Handle.viewedCount (fold_left Handle.track entries h))); simpl.
  - exists (Handle.requestSync (fold_left Handle.track entries h)).
    rewrite set_requestSync_same, tracks_requestSync.
    split; [|done]. by destruct (fold_left (latest_step h) entries None).
  - eexists. split; [reflexivity|]. simpl. by rewrite tracks_requestSync.
Qed.

Lemma requestSync_fires_shape (root : HostElement) (h : Handle.t) :
  exists d,
    (requestSync_fires root h).1 = Handle.set_requestSync d h /\
    Utils.ms d = Utils.ms (Handle.requestSync h).
Proof.
  unfold Handle.requestSync_fires.
  destruct (Utils.pending (Handle.requestSync h)); simpl.
  - destruct (truthy (Handle.viewedCount h)); simpl; eexists; split;
      reflexivity || done.
  - exists (Handle.requestSync h). by rewrite set_requestSync_same.
Qed.

Lemma viewed_are_mounted_track (h : Handle.t) (e : IntersectionObserverEntry) :
  viewed_are_mounted h -> viewed_are_mounted (Handle.track h e).
Proof.
  unfold viewed_are_mounted, Handle.track. intros Hv el.
  destruct (isIntersecting e).
  - destruct (Handle.mountedIndexes h !! target e) eqn:Hm; simpl; [|apply Hv].
    rewrite lookup_insert. case_decide as Heq; [|apply Hv].
    intros _. subst el. by rewrite Hm.
  - destruct (Handle.viewedIndexes h !! target e); simpl; [|apply Hv].
    rewrite lookup_delete. case_decide; [by intros [? ?] | apply Hv].
Qed.

Lemma viewed_are_mounted_tracks (entries : list IntersectionObserverEntry)
    (h : Handle.t) :
  viewed_are_mounted h -> viewed_are_mounted (fold_left Handle.track entries h).
Proof.
  revert h. induction entries as [|e rest IH]; intros h Hv; simpl; [done|].
  by apply IH, viewed_are_mounted_track.
Qed.

Lemma viewed_are_mounted_unobserve (el : Element) (h : Handle.t) :
  viewed_are_mounted h -> viewed_are_mounted (Handle._unobserve el h).
Proof.
  unfold viewed_are_mounted, Handle._unobserve. intros Hv el'.
  destruct (Handle.viewedIndexes h !! el) eqn:Hel; simpl.
  - rewrite !lookup_delete. case_decide; [by intros [? ?] | apply Hv].
  - rewrite lookup_delete. case_decide as Heq; [|apply Hv].
    subst el'. rewrite Hel. by intros [? ?].
Qed.

Lemma viewed_are_mounted_observe (el : Element) (i : Z) (h : Handle.t) :
  viewed_are_mounted h -> viewed_are_mounted (Handle._observe el i h).
Proof.
  unfold viewed_are_mounted, Handle._observe. intros Hv el' Hin. simpl in *.
  rewrite lookup_insert. case_decide; [by eexists | by apply Hv].
Qed.

(** What every event keeps. *)
Lemma handle_step_keeps (h : Handle.t) (ev : HandleEvent) :
  counts_viewed h /\ viewed_are_mounted h /\
  Utils.ms (Handle.requestSync h) = 200 ->
  counts_viewed (handle_step isHorizontal reverse h ev).1 /\
  viewed_are_mounted (handle_step isHorizontal reverse h ev).1 /\
  Utils.ms (Handle.requestSync (handle_step isHorizontal reverse h ev).1) = 200.
Proof.
  intros (Hc & Hv & Hms). destruct ev as [el i|el|root entries|root|]; simpl.
  - split; [done|]. split; [by apply viewed_are_mounted_observe | done].
  - split; [by apply counts_viewed_unobserve|].
    split; [by apply viewed_are_mounted_unobserve|].
    unfold Handle._unobserve. by destruct (Handle.viewedIndexes h !! el).
  - destruct (io_callback_shape root h entries) as (d & -> & Hd).
    split; [by apply counts_viewed_tracks|].
    split; [by apply viewed_are_mounted_tracks|]. simpl. congruence.
  - destruct (requestSync_fires_shape root h) as (d & -> & Hd).
    split; [done|]. split; [done|]. simpl. congruence.
  - done.
Qed.

Lemma handle_run_keeps (evs : list HandleEvent) (h : Handle.t) :
  counts_viewed h /\ viewed_are_mounted h /\
  Utils.ms (Handle.requestSync h) = 200 ->
  counts_viewed (handle_run isHorizontal reverse evs h).1 /\
  viewed_are_mounted (handle_run isHorizontal reverse evs h).1 /\
  Utils.ms (Handle.requestSync (handle_run isHorizontal reverse evs h).1) = 200.
Proof.
  revert h. induction evs as [|ev rest IH]; intros h Hinv; simpl; [done|].
  pose proof (handle_step_keeps h ev Hinv) as Hstep.
  destruct (handle_step isHorizontal reverse h ev) as [h1 issued1]. simpl in Hstep.
  specialize (IH h1 Hstep).
  by destruct (handle_run isHorizontal reverse rest h1) as [h2 issued2].
Qed.

(** X1. Whatever happens to the handle of a list after [_init] (items
    observed and unobserved, intersection batches, expiries of the timer,
    teardown, in any order), [viewedCount] is at least the number of
    nodes in [viewedIndexes], so it is never negative; every node in
    [viewedIndexes] is in [mountedIndexes]; and the delay of
    [requestSync] is 200. *)
Theorem handle_invariants (evs : list HandleEvent) :
  let h := (handle_run isHorizontal reverse evs Handle.initial).1 in
  Z.of_nat (size (Handle.viewedIndexes h)) <= Handle.viewedCount h /\
  0 <= Handle.viewedCount h /\
  viewed_are_mounted h /\
  Utils.ms (Handle.requestSync h) = 200.
Proof.
  cbv zeta.
  destruct (handle_run_keeps evs Handle.initial) as (Hc & Hv & Hms).
  { split; [apply counts_viewed_initial|]. split; [|done].
    intros el. simpl. rewrite lookup_empty. by intros [? ?]. }
  unfold counts_viewed in Hc. repeat split; try done. lia.
Qed.

End HandleOverTime.

(** ** Batches of the intersection observer *)
Section Batches.
Variable isHorizontal : bool.
Variable reverse : bool.

Abbreviation io_callback := (Handle.io_callback isHorizontal reverse).
Abbreviation intersection_offset := (Handle.intersection_offset isHorizontal reverse).
Abbreviation native_offset := (Handle.native_offset isHorizontal reverse).
Abbreviation requestSync_fires := (Handle.requestSync_fires isHorizontal reverse).
Abbreviation poll := (Handle.poll isHorizontal reverse).

Lemma tracks_unmounted (entries : list IntersectionObserverEntry) (h : Handle.t) :
  viewed_are_mounted h ->
  Forall (fun e => Handle.mountedIndexes h !! target e = None) entries ->
  fold_left Handle.track entries h = h.
Proof.
  intros Hv Hall. induction Hall as [|e rest He Hrest IH]; simpl; [done|].
  assert (Hte : Handle.track h e = h).
  { unfold Handle.track. rewrite He.
    destruct (isIntersecting e); [done|].
    destruct (Handle.viewedIndexes h !! target e) eqn:Hview; [|done].
    destruct (Hv (target e)) as [i Hi]; [by eexists | congruence]. }
  by rewrite Hte.
Qed.

(** X2. A batch whose entries are all for nodes that are not mounted
    (they were unobserved after the entries were queued) changes nothing
    in the handle's maps and count and issues no anchor update: it issues
    the scroll update of the fallback when no item is viewed, and nothing
    otherwise. *)
Theorem unmounted_batch_ignored (root : HostElement) (h : Handle.t)
    (entries : list IntersectionObserverEntry) :
  viewed_are_mounted h ->
  Forall (fun e => Handle.mountedIndexes h !! target e = None) entries ->
  Handle.viewedCount (io_callback root h entries).1 = Handle.viewedCount h /\
  Handle.viewedIndexes (io_callback root h entries).1 = Handle.viewedIndexes h /\
  Handle.mountedIndexes (io_callback root h entries).1 = Handle.mountedIndexes h /\
  (io_callback root h entries).2
    = (if decide (Handle.viewedCount h = 0)
       then [HANDLE_SCROLL (native_offset root)] else []).
Proof.
  intros Hv Hall.
  pose proof (tracks_unmounted entries h Hv Hall) as Hfold.
  assert (Hlatest : fold_left (latest_step h) entries None = None).
  { pose proof (latest_spec h entries) as Hl.
    destruct (fold_left (latest_step h) entries None) as [e|]; [|done].
    destruct Hl as ([i Hi] & pre & post & -> & _).
    apply Forall_app in Hall as [_ Hall]. apply Forall_cons in Hall as [He _].
    congruence. }
  unfold Handle.io_callback.
  rewrite (io_loop entries h h None eq_refl), Hfold, Hlatest.
  case_decide as H0.
  - apply not_truthy in H0 as Ht. rewrite Ht. simpl. done.
  - destruct (truthy (Handle.viewedCount h)) eqn:Ht; simpl; [done|].
    by apply not_truthy in Ht.
Qed.

(** Entries that report one mounted node as intersecting: each of them
    counts, the node is recorded once. *)
Lemma tracks_repeated (entries : list IntersectionObserverEntry) (h : Handle.t)
    (el : Element) (i : Z) :
  Handle.mountedIndexes h !! el = Some i ->
  Forall (fun e => target e = el /\ isIntersecting e = true) entries ->
  let h1 := fold_left Handle.track entries h in
  Handle.viewedCount h1 = Handle.viewedCount h + Z.of_nat (length entries) /\
  Handle.viewedIndexes h1
    = (if decide (entries = []) then Handle.viewedIndexes h
       else <[el := i]> (Handle.viewedIndexes h)).
Proof.
  cbv zeta. intros Hm Hall. revert h Hm.
  induction Hall as [|e rest [Ht Hi] Hrest IH]; intros h Hm; simpl.
  - split; [lia | done].
  - assert (Hte : Handle.track h e
                  = {| Handle.viewedCount := Handle.viewedCount h + 1;
                       Handle.mountedIndexes := Handle.mountedIndexes h;
                       Handle.viewedIndexes := <[el := i]> (Handle.viewedIndexes h);
                       Handle.requestSync := Handle.requestSync h |}).
    { unfold Handle.track. by rewrite Hi, Ht, Hm. }
    rewrite Hte.
    destruct (IH {| Handle.viewedCount := Handle.viewedCount h + 1;
                    Handle.mountedIndexes := Handle.mountedIndexes h;
                    Handle.viewedIndexes := <[el := i]> (Handle.viewedIndexes h);
                    Handle.requestSync := Handle.requestSync h |} Hm)
      as [Hc Hvi].
    simpl in Hc, Hvi.
    rewrite Hc, Hvi. split; [lia|].
    case_decide; [done|]. by rewrite insert_insert_eq.
Qed.

(** X3. Every entry that reports a mounted node as intersecting adds one
    to [viewedCount], also when the node is viewed already, while an
    entry that reports it as not intersecting takes one off only once.
    So after a batch that reports a node as intersecting [n >= 2] times
    and then as not intersecting, the node is not viewed any more but the
    count stands [n - 1] above its old value: with a count that was not
    negative the callback does not fall back to the scroll offset (no
    timer is started, exactly one anchor update is issued). *)
Theorem repeated_intersections_overcount (root : HostElement) (h : Handle.t)
    (el : Element) (i : Z) (entries : list IntersectionObserverEntry)
    (x : IntersectionObserverEntry) :
  Handle.mountedIndexes h !! el = Some i ->
  0 <= Handle.viewedCount h ->
  Forall (fun e => target e = el /\ isIntersecting e = true) entries ->
  (2 <= length entries)%nat ->
  target x = el -> isIntersecting x = false ->
  let h1 := (io_callback root h (entries ++ [x])).1 in
  Handle.viewedIndexes h1 !! el = None /\
  Handle.viewedCount h1
    = Handle.viewedCount h + Z.of_nat (length entries) - 1 /\
  Handle.requestSync h1 = Handle.requestSync h /\
  exists e, e ∈ entries ++ [x] /\
    (io_callback root h (entries ++ [x])).2
      = [HANDLE_ITEM_INTERSECTION (Some i) (intersection_offset e)].
Proof.
  cbv zeta. intros Hm H0 Hall Hlen Hx Hxi.
  destruct (tracks_repeated entries h el i Hm Hall) as [Hc Hvi].
  assert (Hne : entries <> []) by (intros ->; simpl in Hlen; lia).
  rewrite decide_False in Hvi by done.
  set (h' := fold_left Handle.track entries h) in *.
  assert (Hfold : fold_left Handle.track (entries ++ [x]) h
                  = {| Handle.viewedCount := Handle.viewedCount h' - 1;
                       Handle.mountedIndexes := Handle.mountedIndexes h';
                       Handle.viewedIndexes := delete el (Handle.viewedIndexes h');
                       Handle.requestSync := Handle.requestSync h' |}).
  { rewrite fold_left_app. simpl. fold h'. unfold Handle.track.
    rewrite Hxi, Hx, Hvi, lookup_insert_eq. done. }
  assert (Hall' : Forall (fun e => target e = el) (entries ++ [x])).
  { apply Forall_app. split.
    - eapply Forall_impl; [exact Hall|]. by intros ? [? _].
    - by apply Forall_singleton. }
  unfold Handle.io_callback.
  rewrite (io_loop (entries ++ [x]) h h None eq_refl), Hfold. simpl.
  assert (Ht : truthy (Handle.viewedCount h' - 1) = true).
  { unfold truthy. destruct (Z.eqb_spec (Handle.viewedCount h' - 1) 0); [lia|done]. }
  rewrite Ht. simpl.
  pose proof (latest_spec h (entries ++ [x])) as Hl.
  destruct (fold_left (latest_step h) (entries ++ [x]) None) as [e|]; simpl.
  - destruct Hl as (_ & pre & post & Heq & _).
    assert (Hin : e ∈ entries ++ [x]).
    { rewrite Heq. apply elem_of_app. right. left. }
    rewrite lookup_delete_eq. split; [done|]. split; [lia|].
    subst h'. rewrite tracks_requestSync, tracks_mountedIndexes.
    split; [done|]. exists e. split; [done|].
    rewrite Forall_forall in Hall'. by rewrite (Hall' e Hin), Hm.
  - exfalso. destruct entries as [|e0 rest]; [done|].
    apply (Hl e0); [left|].
    apply Forall_cons in Hall as [[He0 _] _].
    unfold is_mounted. rewrite He0, Hm. by eexists.
Qed.

(** X4. Observing a node that is neither mounted nor viewed and then
    running the function [_observe] returned gives the handle back as it
    was; in between the node is mounted at the index it was observed
    with. *)
Theorem observe_then_unobserve (h : Handle.t) (el : Element) (i : Z) :
  Handle.mountedIndexes h !! el = None ->
  Handle.viewedIndexes h !! el = None ->
  Handle.mountedIndexes (Handle._observe el i h) !! el = Some i /\
  Handle._unobserve el (Handle._observe el i h) = h.
Proof.
  intros Hm Hv. split.
  - simpl. apply lookup_insert_eq.
  - unfold Handle._unobserve. simpl. rewrite Hv.
    rewrite delete_insert_eq, delete_id by done. by destruct h.
Qed.

(** X5. The function [_observe] returns can run twice: the second run
    changes nothing, the count is taken down at most once; after it the
    node is neither mounted nor viewed and the other nodes are as they
    were. *)
Theorem unobserve_idempotent (h : Handle.t) (el : Element) :
  let h1 := Handle._unobserve el h in
  Handle._unobserve el h1 = h1 /\
  Handle.mountedIndexes h1 !! el = None /\
  Handle.viewedIndexes h1 !! el = None /\
  (forall el', el' <> el ->
     Handle.mountedIndexes h1 !! el' = Handle.mountedIndexes h !! el' /\
     Handle.viewedIndexes h1 !! el' = Handle.viewedIndexes h !! el').
Proof.
  cbv zeta. unfold Handle._unobserve.
  destruct (Handle.viewedIndexes h !! el) eqn:Hv; simpl.
  - rewrite !lookup_delete_eq. split; [|split; [done|split; [done|]]].
    + f_equal; apply delete_id; apply lookup_delete_eq.
    + intros el' Hne. by rewrite !lookup_delete_ne.
  - rewrite Hv, lookup_delete_eq. split; [|split; [done|split; [done|]]].
    + f_equal. apply delete_id, lookup_delete_eq.
    + intros el' Hne. by rewrite lookup_delete_ne.
Qed.

Lemma poll_not_pending (roots : list HostElement) (h : Handle.t) :
  Utils.pending (Handle.requestSync h) = false -> poll roots h = (h, []).
Proof.
  intros Hp. induction roots as [|root rest IH]; [done|].
  simpl. unfold Handle.requestSync_fires at 1. rewrite Hp. by rewrite IH.
Qed.

(** X6. An anchor update does not cancel the polling: when a batch
    arrives while the timer of [requestSync] is pending and leaves the
    count of viewed items other than [0], the timer stays pending; its
    next expiry issues nothing and clears it, and no later expiry issues
    anything. *)
Theorem pending_poll_lapses (root : HostElement) (h : Handle.t)
    (entries : list IntersectionObserverEntry) :
  Utils.pending (Handle.requestSync h) = true ->
  Handle.viewedCount (io_callback root h entries).1 <> 0 ->
  let h1 := (io_callback root h entries).1 in
  Handle.requestSync h1 = Handle.requestSync h /\
  forall (root' : HostElement) (roots : list HostElement),
    poll (root' :: roots) h1
    = (Handle.set_requestSync (Utils.cancel (Handle.requestSync h1)) h1, []).
Proof.
  cbv zeta. intros Hp Hc.
  assert (Hrs : Handle.requestSync (io_callback root h entries).1
                = Handle.requestSync h).
  { rewrite io_callback_viewedCount in Hc.
    unfold Handle.io_callback. rewrite (io_loop entries h h None eq_refl).
    destruct (truthy (Handle.viewedCount (fold_left Handle.track entries h))) eqn:Ht;
      simpl; [|by apply not_truthy in Ht].
    destruct (fold_left (latest_step h) entries None); simpl;
      apply tracks_requestSync. }
  split; [exact Hrs|]. intros root' roots. simpl.
  rewrite requestSync_fires_viewed by (done || by rewrite Hrs).
  by rewrite poll_not_pending.
Qed.

(** X7. After the function [_init] returned has run no expiry issues
    anything, however many follow and whatever the count of viewed
    items. *)
Theorem no_poll_after_teardown (roots : list HostElement) (h : Handle.t) :
  poll roots (Handle._init_cleanup h) = (Handle._init_cleanup h, []) /\
  Handle._init_cleanup (Handle._init_cleanup h) = Handle._init_cleanup h.
Proof. split; [by apply poll_not_pending | done]. Qed.

End Batches.

(** ** Scrolling and the corrections of the layout effect *)
Section Scrolling.
Variable props : ListProps.
Variable store : Store.

(** X8. The handle of a list is created in its first render, and its
    [syncViewportToScrollPosition] reads the host container with the axis
    and the direction of that render, [isHorizontal0] and [reverse0];
    [scrollTo] uses the props of the current render.  When the axis is
    still the one of the first render and the container holds, when it is
    read, the value [scrollTo(index)] assigned, the scroll update reports
    [min(getItemOffset(index), scrollSize - viewportSize)] if the
    direction is the one of the first render too (the sign [scrollTo]
    applies for a reversed list is taken off again), and the negation of
    it if [reverse] has changed since.  [scrollTo] does not touch the
    scroll property of the other axis. *)
Theorem scrollTo_then_sync (isHorizontal0 reverse0 : bool) (index : Z)
    (root root' read : HostElement) :
  horizontal props = isHorizontal0 ->
  scrollTo props store index (Some root) = Some root' ->
  scroll_of props read = scroll_of props root' ->
  Handle.syncViewportToScrollPosition isHorizontal0 reverse0 read
    = HANDLE_SCROLL
        (if Bool.eqb (reverse props) reverse0
         then Z.min (_getItemOffset store index)
                    (scrollSize store - viewportSize store)
         else - Z.min (_getItemOffset store index)
                      (scrollSize store - viewportSize store)) /\
  (horizontal props = true -> scrollTop root' = scrollTop root) /\
  (horizontal props = false -> scrollLeft root' = scrollLeft root).
Proof.
  intros Hax Hset Hread.
  assert (Hclamp :
    (if scrollSize store - (_getItemOffset store index + viewportSize store) <=? 0
     then scrollSize store - viewportSize store
     else _getItemOffset store index)
    = Z.min (_getItemOffset store index) (scrollSize store - viewportSize store)).
  { destruct (Z.leb_spec (scrollSize store
                          - (_getItemOffset store index + viewportSize store)) 0);
      lia. }
  unfold scrollTo in Hset. rewrite Hclamp in Hset.
  injection Hset as <-.
  unfold Handle.syncViewportToScrollPosition, Handle.native_offset.
  unfold scroll_of, isHorizontal in *. subst isHorizontal0.
  destruct (horizontal props), (reverse props), reverse0; simpl in *;
    rewrite Hread; (split; [f_equal; lia | split; intros; done]).
Qed.

(** X9. The layout effect on a mounted root changes the scroll offset of
    the axis by the start correction, unless [startIndex] is [0] and the
    offset is [0], plus the end correction when [endIndex] is
    [count - 1] and [startIndex] is not [0]; it never touches the scroll
    property of the other axis, and with a jump of [{0, 0}] it leaves the
    root as it is. *)
Theorem jump_effect_total (root : HostElement) :
  let s := if decide (startIndex store = 0 /\ scroll_of props root = 0)
           then 0 else _start (jump store) in
  let e := if decide (endIndex store = count props - 1 /\ startIndex store <> 0)
           then _end (jump store) else 0 in
  exists root',
    jump_effect props store (Some root) = Some root' /\
    scroll_of props root' = scroll_of props root + s + e /\
    (horizontal props = true -> scrollTop root' = scrollTop root) /\
    (horizontal props = false -> scrollLeft root' = scrollLeft root) /\
    (_start (jump store) = 0 -> _end (jump store) = 0 -> root' = root).
Proof.
  cbv zeta. eexists. split; [reflexivity|].
  assert (Hs : jump_start props store root
               = scroll_add props
                   (if decide (startIndex store = 0 /\ scroll_of props root = 0)
                    then 0 else _start (jump store)) root).
  { unfold jump_start, isStartInView. case_decide as Hd.
    - destruct Hd as [-> ->]. simpl. rewrite andb_false_r. by rewrite scroll_add_0.
    - destruct (truthy (_start (jump store))) eqn:Ht; simpl.
      + destruct (Z.eqb_spec (startIndex store) 0); simpl; [|done].
        destruct (Z.eqb_spec (scroll_of props root) 0); simpl; [|done].
        exfalso. by apply Hd.
      + apply truthy_false in Ht. by rewrite Ht, scroll_add_0. }
  assert (He : forall r, jump_end props store r
               = scroll_add props
                   (if decide (endIndex store = count props - 1 /\ startIndex store <> 0)
                    then _end (jump store) else 0) r).
  { intros r. unfold jump_end, isStartInView, isEndInView.
    destruct (decide (endIndex store = count props - 1 /\ startIndex store <> 0))
      as [Hd|Hd].
    - destruct Hd as [Hd1 Hd2].
      destruct (truthy (_end (jump store))) eqn:Ht; simpl.
      + destruct (Z.eqb_spec (startIndex store) 0); [congruence|]. simpl.
        destruct (Z.eqb_spec (endIndex store - (count props - 1)) 0); [done|lia].
      + apply truthy_false in Ht. by rewrite Ht, scroll_add_0.
    - rewrite scroll_add_0.
      destruct (Z.eqb_spec (startIndex store) 0); simpl.
      + by rewrite andb_false_r.
      + rewrite andb_true_r.
        destruct (Z.eqb_spec (endIndex store - (count props - 1)) 0);
          [|by rewrite andb_false_r].
        exfalso. apply Hd. split; [lia|done]. }
  rewrite He, Hs, !scroll_of_scroll_add.
  split; [lia|].
  unfold scroll_add, isHorizontal.
  split; [|split].
  - intros ->. done.
  - intros ->. done.
  - intros H1 H2. rewrite H1, H2.
    destruct (decide _), (decide _), (horizontal props), root; simpl;
      f_equal; lia.
Qed.

End Scrolling.

(** ** The offset of an anchor update *)

(** X10. For rectangles whose far edges are their near edges plus their
    extents, the offset of an anchor update in a reversed list and the
    one in a list that is not reversed add up to the extent of the root
    minus the extent of the item along the axis: the two measure the same
    item from the two ends of the viewport. *)
Theorem intersection_offsets_mirror (isHorizontal : bool)
    (e : IntersectionObserverEntry) :
  rect_consistent (boundingClientRect e) ->
  rect_consistent (rootBounds e) ->
  Handle.intersection_offset isHorizontal true e
  + Handle.intersection_offset isHorizontal false e
  = if isHorizontal
    then rect_width (rootBounds e) - rect_width (boundingClientRect e)
    else rect_height (rootBounds e) - rect_height (boundingClientRect e).
Proof.
  intros [Hr Hb] [Hr' Hb']. unfold Handle.intersection_offset.
  destruct isHorizontal; lia.
Qed.

Lemma intersection_offsets_mirror_witness :
  rect_consistent (boundingClientRect (io_entry item_A 5 true 140)) /\
  rect_consistent (rootBounds (io_entry item_A 5 true 140)) /\
  Handle.intersection_offset false true (io_entry item_A 5 true 140)
  + Handle.intersection_offset false false (io_entry item_A 5 true 140)
  = 400 - 40.
Proof.
  assert (H1 : rect_consistent (boundingClientRect (io_entry item_A 5 true 140)))
    by (split; reflexivity).
  assert (H2 : rect_consistent (rootBounds (io_entry item_A 5 true 140)))
    by (split; reflexivity).
  split; [exact H1|]. split; [exact H2|].
  exact (intersection_offsets_mirror false (io_entry item_A 5 true 140) H1 H2).
Defined.

(** ** The items of a render *)
Section Items.
Variable props : ListProps.
Variable store : Store.

Lemma valid_children_cons (e : ReactNode) (cs : list ReactNode) :
  valid_children (e :: cs)
  = if isInvalidElement e then valid_children cs else e :: valid_children cs.
Proof.
  unfold valid_children. destruct (isInvalidElement e) eqn:He.
  - rewrite filter_cons_False; [done | by rewrite He].
  - by rewrite filter_cons_True.
Qed.

Lemma items_from_elements (cs : list ReactNode) (i : Z) (it : ItemProps) :
  it ∈ items_from props store i cs ->
  i < _index it /\
  valid_children cs !! Z.to_nat (_index it - i - 1) = Some (_element it) /\
  _isHorizontal it = horizontal props /\ _isReversed it = reverse props.
Proof.
  revert i. induction cs as [|e rest IH]; intros i Hin; simpl in Hin.
  - by apply elem_of_nil in Hin.
  - rewrite valid_children_cons.
    destruct (isInvalidElement e); [by apply IH|].
    assert (Hrest : it ∈ items_from props store (i + 1) rest ->
      i < _index it /\
      (e :: valid_children rest) !! Z.to_nat (_index it - i - 1)
        = Some (_element it) /\
      _isHorizontal it = horizontal props /\ _isReversed it = reverse props).
    { intros Hr. destruct (IH _ Hr) as (Hlt & Hl & Hh & Hrv).
      split; [lia|]. split; [|done].
      replace (Z.to_nat (_index it - i - 1))
        with (S (Z.to_nat (_index it - (i + 1) - 1))) by lia.
      exact Hl. }
    destruct ((i + 1 <? startIndexWithMargin props store)
              || (i + 1 >? endIndexWithMargin props store)); [by apply Hrest|].
    apply elem_of_cons in Hin as [->|Hin]; [|by apply Hrest]. simpl.
    split; [lia|]. split; [|done].
    by replace (Z.to_nat (i + 1 - i - 1)) with 0%nat by lia.
Qed.

(** X11. Every item of a render holds the child that stands at its index
    among the valid children of the list (those that are not [null],
    [undefined] or a boolean), with the axis and the direction of the
    list; its index is not negative. *)
Theorem items_hold_their_children (it : ItemProps) :
  it ∈ items props store ->
  0 <= _index it /\
  valid_children (children props) !! Z.to_nat (_index it) = Some (_element it) /\
  isInvalidElement (_element it) = false /\
  _isHorizontal it = horizontal props /\ _isReversed it = reverse props.
Proof.
  intros Hin. apply items_from_elements in Hin as (Hlt & Hl & Hh & Hr).
  replace (Z.to_nat (_index it - -1 - 1)) with (Z.to_nat (_index it)) in Hl by lia.
  split; [lia|]. split; [done|]. split; [|done].
  apply list_elem_of_lookup_2 in Hl. unfold valid_children in Hl.
  by apply list_elem_of_filter in Hl as [? _].
Qed.

Lemma count_from_valid (cs : list ReactNode) (i : Z) :
  count_from i (valid_children cs) = count_from i cs.
Proof.
  revert i. induction cs as [|e rest IH]; intros i; [done|].
  rewrite valid_children_cons. simpl.
  destruct (isInvalidElement e) eqn:He; [apply IH|].
  simpl. rewrite He. apply IH.
Qed.

Lemma items_from_valid (cs : list ReactNode) (i : Z) :
  items_from props store i (valid_children cs) = items_from props store i cs.
Proof.
  revert i. induction cs as [|e rest IH]; intros i; [done|].
  rewrite valid_children_cons. simpl.
  destruct (isInvalidElement e) eqn:He; [apply IH|].
  simpl. rewrite He.
  destruct ((i + 1 <? startIndexWithMargin props store)
            || (i + 1 >? endIndexWithMargin props store)); [apply IH|].
  f_equal. apply IH.
Qed.

Lemma items_from_same_window (props' : ListProps) (cs : list ReactNode) (i : Z) :
  startIndexWithMargin props' store = startIndexWithMargin props store ->
  endIndexWithMargin props' store = endIndexWithMargin props store ->
  horizontal props' = horizontal props ->
  reverse props' = reverse props ->
  items_from props' store i cs = items_from props store i cs.
Proof.
  intros Hs He Hh Hr. revert i.
  induction cs as [|e rest IH]; intros i; simpl; [done|].
  destruct (isInvalidElement e); [apply IH|].
  rewrite Hs, He, IH. unfold isHorizontal. by rewrite Hh, Hr.
Qed.

(** X12. Children that are [null], [undefined] or a boolean take no
    index: a list renders the same count and, in the same order, items
    that receive the same element, index, axis and direction as those of
    the list of its valid children alone, and mounts the same indices.
    (The keys of the elements are not compared.) *)
Theorem invalid_children_transparent :
  let props' := with_children (valid_children (children props)) props in
  count props' = count props /\
  map received_props (items props' store)
    = map received_props (items props store) /\
  mounted_indexes props' store = mounted_indexes props store.
Proof.
  cbv zeta.
  assert (Hc : count (with_children (valid_children (children props)) props)
               = count props).
  { unfold count. simpl. apply count_from_valid. }
  assert (Hi : items (with_children (valid_children (children props)) props) store
               = items props store).
  { unfold items. simpl. rewrite <- items_from_valid.
    apply items_from_same_window; try done.
    unfold endIndexWithMargin. by rewrite Hc. }
  split; [done|]. split; [by rewrite Hi|].
  unfold mounted_indexes, inner_children. by rewrite Hi.
Qed.

End Items.

Lemma items_hold_their_children_witness :
  let it := {| item_key := KeyIndex 1; _element := RText "b"; _index := 1;
               _isHorizontal := false; _isReversed := false |} in
  it ∈ items sample_props (sample_store 80) /\
  valid_children (children sample_props) !! Z.to_nat (_index it)
    = Some (_element it).
Proof.
  cbv zeta.
  assert (Hin : {| item_key := KeyIndex 1; _element := RText "b"; _index := 1;
                   _isHorizontal := false; _isReversed := false |}
                ∈ items sample_props (sample_store 80)).
  { vm_compute. right. left. }
  split; [exact Hin|].
  exact (proj1 (proj2 (items_hold_their_children sample_props (sample_store 80)
                         _ Hin))).
Defined.

(** ** How many items a render mounts *)
Section Bounds.
Variable props : ListProps.
Variable store : Store.

Lemma count_from_length (cs : list ReactNode) :
  count_from 0 cs = Z.of_nat (length (valid_children cs)).
Proof.
  induction cs as [|e rest IH]; [done|].
  rewrite valid_children_cons. simpl.
  destruct (isInvalidElement e); [done|].
  rewrite count_from_shift, IH. simpl. lia.
Qed.

(** X18. The item count of a list is the number of its children that are
    not [null], [undefined] or a boolean: it is never negative and never
    more than the number of children. *)
Theorem count_is_valid_children :
  count props = Z.of_nat (length (valid_children (children props))) /\
  0 <= count props <= Z.of_nat (length (children props)).
Proof.
  unfold count. rewrite count_from_length.
  split; [done|]. split; [lia|].
  apply inj_le. unfold valid_children. apply length_filter.
Qed.

(** X19. A render mounts at most as many items as the visible range and
    the margin on both of its sides span,
    [endIndex - startIndex + 1 + 2 * itemMargin], and at most as many as
    the list has, however long the list is. *)
Theorem mounted_items_bounded :
  Z.of_nat (length (mounted (inner_children props store)))
    <= Z.max 0 (endIndex store - startIndex store + 1 + 2 * itemMargin props) /\
  Z.of_nat (length (mounted (inner_children props store))) <= count props.
Proof.
  assert (Hlen : Z.of_nat (length (items props store))
                 = Z.max 0 (Z.min (endIndex store + itemMargin props) (count props - 1)
                            - Z.max (startIndex store - itemMargin props) 0 + 1)).
  { rewrite <- (length_map _index), items_indexes. cbv zeta.
    rewrite length_seqZ. lia. }
  assert (H0 : 0 <= count props).
  { unfold count. apply count_from_nonneg. }
  unfold inner_children.
  destruct (Z.eqb_spec (viewportSize store) 0); simpl; lia.
Qed.

End Bounds.

(** ** The calls of [onEndReached] over time *)

(** X13. Over any sequence of runs of the effect on [endIndex], from any
    value of the ref, the item counts at which [onEndReached] is called
    increase strictly and lie above the value the ref started with: a
    call is made again only after the list has grown beyond the count of
    the last call.  The ref never decreases, and every call sees the ref
    at the count of its render. *)
Theorem onEndReached_counts_increase
    (renders : list (ListProps * Store)) (ref : Z) :
  increasing_from ref (call_counts (endReached_runs ref renders).2) /\
  ref <= (endReached_runs ref renders).1 /\
  Forall (fun p => p.2 = OnEndReached p.1) (endReached_runs ref renders).2.
Proof.
  revert ref. induction renders as [|[props store] rest IH]; intros ref; simpl.
  - split; [done|]. split; [lia | constructor].
  - destruct (endReached_effect_ref props store ref)
      as [[Hcalls Href]|(Hcalls & Href & Hlt)];
      destruct (endReached_effect props store ref) as [ref1 calls]; simpl in *;
      subst calls ref1.
    + specialize (IH ref).
      destruct (endReached_runs ref rest) as [ref2 later]; simpl in *. exact IH.
    + specialize (IH (count props)).
      destruct (endReached_runs (count props) rest) as [ref2 later]; simpl in *.
      destruct IH as (Hinc & Hle & Hall).
      split; [by split|]. split; [lia|]. by constructor.
Qed.

(** ** Styles *)

(** X14. The [div] of a React [Item] is positioned absolutely with its
    offset on exactly one edge along the scroll axis: the start edge of
    the direction ([top], or [bottom] when reversed; [left], or [right]
    when reversed, for a horizontal list), while the opposite edge is not
    set; the start edge across the axis is [0]; and it is a flex
    container exactly in a horizontal list.  Hiding the item changes none
    of this. *)
Theorem Item_placement (offset : Z) (isHorizontal isReversed hide : bool) :
  let st := Item.style_of offset isHorizontal isReversed hide in
  let edge := (if isHorizontal then (if isReversed then "right" else "left")
               else (if isReversed then "bottom" else "top"))%string in
  let opposite := (if isHorizontal then (if isReversed then "left" else "right")
                   else (if isReversed then "top" else "bottom"))%string in
  let across := (if isHorizontal then "top" else "left")%string in
  st !! "position"%string = Some (Item.Str "absolute") /\
  st !! edge = Some (Item.Px offset) /\
  st !! opposite = None /\
  st !! across = Some (Item.Px 0) /\
  (st !! "display"%string = Some (Item.Str "flex") <-> isHorizontal = true).
Proof.
  cbv zeta. unfold Item.style_of, Item.axis_part, Item.hide_part, Item.spread.
  destruct isHorizontal, isReversed, hide;
    rewrite ?lookup_union; simplify_map_eq; repeat split; done.
Qed.

(** X15. The [div] of a Vue [ListItem] is positioned absolutely with its
    offset, in pixels, on [top] in a vertical list and on [left] in a
    horizontal one, or on [right] when the document is right to left; the
    start edge across the axis is ["0px"]; it is a flex container exactly
    in a horizontal list. *)
Theorem ListItem_placement (isRTLDocument : bool) (props : ListItem.Props) :
  let st := ListItem.style isRTLDocument props in
  let edge := (if ListItem._isHorizontal props
               then (if isRTLDocument then "right" else "left")
               else "top")%string in
  let across := (if ListItem._isHorizontal props then "top" else "left")%string in
  st !! "position"%string = Some (ListItem.VStr "absolute") /\
  st !! edge = Some (ListItem.VPx (ListItem._offset props)) /\
  st !! across = Some (ListItem.VStr "0px") /\
  (st !! "display"%string = Some (ListItem.VStr "flex")
   <-> ListItem._isHorizontal props = true).
Proof.
  cbv zeta. unfold ListItem.style.
  destruct (ListItem._isHorizontal props), isRTLDocument;
    simplify_map_eq; repeat split; done.
Qed.

(** X16. Along the scroll axis the inner container of the list is as
    large as the content and never smaller than the viewport: its size
    and its minimal size are [max(scrollSize, viewportSize)], unless the
    [innerStyle] prop sets the property; a property [innerStyle] sets
    always wins. *)
Theorem inner_container_covers_viewport (props : ListProps) (store : Store)
    (innerStyle : gmap string Item.CSSValue) (key : string) :
  key ∈ axis_size_keys (isHorizontal props) ->
  innerStyle !! key = None ->
  inner_style props store innerStyle !! key
    = Some (Item.Px (Z.max (scrollSize store) (viewportSize store))) /\
  viewportSize store <= Z.max (scrollSize store) (viewportSize store) /\
  (forall k v, innerStyle !! k = Some v ->
     inner_style props store innerStyle !! k = Some v).
Proof.
  intros Hkey Hnone.
  assert (Hc : crampedScrollSize store
               = Z.max (scrollSize store) (viewportSize store)).
  { unfold crampedScrollSize.
    destruct (Z.geb_spec (scrollSize store) (viewportSize store)); lia. }
  split; [|split; [lia|]].
  - unfold inner_style, Item.spread. rewrite lookup_union, Hnone, Hc.
    unfold axis_size_keys in Hkey.
    destruct (isHorizontal props);
      repeat (apply elem_of_cons in Hkey as [->|Hkey]);
      try (by apply elem_of_nil in Hkey); by simplify_map_eq.
  - intros k v Hk. unfold inner_style, Item.spread.
    by rewrite lookup_union, Hk, union_Some_l.
Qed.

Lemma inner_container_covers_viewport_witness :
  "height"%string ∈ axis_size_keys (isHorizontal sample_props) /\
  (∅ : gmap string Item.CSSValue) !! "height"%string = None /\
  inner_style sample_props (sample_store 400) ∅ !! "height"%string
    = Some (Item.Px 400).
Proof.
  assert (H1 : "height"%string ∈ axis_size_keys (isHorizontal sample_props))
    by left.
  assert (H2 : (∅ : gmap string Item.CSSValue) !! "height"%string = None)
    by reflexivity.
  split; [exact H1|]. split; [exact H2|].
  exact (proj1 (inner_container_covers_viewport sample_props (sample_store 400)
                  ∅ "height" H1 H2)).
Defined.

(** ** Batches of the resize observer *)

Lemma omap_filter_irrelevant {A B : Type} (f : A -> option B) (P : A -> Prop)
    `{forall x, Decision (P x)} (l : list A) :
  (forall x, ~ P x -> f x = None) ->
  omap f (filter P l) = omap f l.
Proof.
  intros Hf. induction l as [|x rest IH]; [done|].
  rewrite filter_cons. case_decide as Hd; cbn -[filter].
  - by rewrite IH.
  - by rewrite IH, (Hf x Hd).
Qed.

(** X17. Entries of a resize batch for nodes that are neither the wrapper
    nor a mounted item (items unobserved after the entries were queued)
    count for nothing: the callback issues what it issues for the batch
    without them. *)
Theorem ro_callback_ignores_unrelated (isHorizontal : bool) (wrapper : Element)
    (h : Handle.t) (entries : list ResizeObserverEntry) :
  Handle.ro_callback isHorizontal wrapper h
    (filter (fun e => ro_target e = wrapper \/
                      is_Some (Handle.mountedIndexes h !! ro_target e)) entries)
  = Handle.ro_callback isHorizontal wrapper h entries.
Proof.
  unfold Handle.ro_callback. rewrite !ro_loop. simpl.
  rewrite (omap_filter_irrelevant (viewport_update wrapper)).
  - rewrite (omap_filter_irrelevant (item_observation isHorizontal wrapper h));
      [done|].
    intros e Hd. unfold item_observation. rewrite decide_False by tauto.
    destruct (Handle.mountedIndexes h !! ro_target e) eqn:Hm; [|done].
    exfalso. apply Hd. right. by eexists.
  - intros e Hd. unfold viewport_update. rewrite decide_False; [done | tauto].
Qed.

(** ** Instances on the sample list *)

Lemma observe_then_unobserve_witness :
  Handle.mountedIndexes two_mounted !! unmounted_X = None /\
  Handle.viewedIndexes two_mounted !! unmounted_X = None /\
  Handle._unobserve unmounted_X (Handle._observe unmounted_X 2 two_mounted)
    = two_mounted.
Proof.
  split; [reflexivity|]. split; [reflexivity|].
  exact (proj2 (observe_then_unobserve two_mounted unmounted_X 2 eq_refl eq_refl)).
Defined.

Lemma B_viewed_are_mounted : viewed_are_mounted B_viewed.
Proof.
  intros el [i Hi].
  assert (Hv : Handle.viewedIndexes B_viewed = {[ item_B := 1 ]}) by reflexivity.
  rewrite Hv in Hi. apply lookup_singleton_Some in Hi as [<- _].
  by exists 1.
Qed.

Lemma unmounted_batch_ignored_witness :
  let batch := [io_entry unmounted_X 12 false 900] in
  viewed_are_mounted B_viewed /\
  Forall (fun e => Handle.mountedIndexes B_viewed !! target e = None) batch /\
  Handle.viewedCount
    (Handle.io_callback false false scrolled_root B_viewed batch).1 = 1 /\
  (Handle.io_callback false false scrolled_root B_viewed batch).2 = [].
Proof.
  cbv zeta.
  assert (H2 : Forall (fun e => Handle.mountedIndexes B_viewed !! target e = None)
                 [io_entry unmounted_X 12 false 900])
    by (constructor; [reflexivity | constructor]).
  split; [exact B_viewed_are_mounted|]. split; [exact H2|].
  destruct (unmounted_batch_ignored false false scrolled_root B_viewed
              [io_entry unmounted_X 12 false 900] B_viewed_are_mounted H2)
    as (Hc & _ & _ & Hi).
  split; [exact Hc | exact Hi].
Defined.

Lemma repeated_intersections_overcount_witness :
  let twice := [io_entry item_A 1 true 100; io_entry item_A 2 true 100] in
  let leave := io_entry item_A 3 false 60 in
  let h1 := (Handle.io_callback false false scrolled_root two_mounted
               (twice ++ [leave])).1 in
  Handle.mountedIndexes two_mounted !! item_A = Some 0 /\
  0 <= Handle.viewedCount two_mounted /\
  Forall (fun e => target e = item_A /\ isIntersecting e = true) twice /\
  (2 <= length twice)%nat /\
  target leave = item_A /\ isIntersecting leave = false /\
  Handle.viewedIndexes h1 !! item_A = None /\
  Handle.viewedCount h1 = 0 + 2 - 1.
Proof.
  cbv zeta.
  assert (H0 : 0 <= Handle.viewedCount two_mounted) by (vm_compute; discriminate).
  assert (Hall : Forall (fun e => target e = item_A /\ isIntersecting e = true)
                   [io_entry item_A 1 true 100; io_entry item_A 2 true 100])
    by (repeat constructor).
  assert (Hlen : (2 <= length [io_entry item_A 1 true 100;
                               io_entry item_A 2 true 100])%nat)
    by (simpl; lia).
  split; [reflexivity|]. split; [exact H0|]. split; [exact Hall|].
  split; [exact Hlen|]. split; [reflexivity|]. split; [reflexivity|].
  destruct (repeated_intersections_overcount false false scrolled_root two_mounted
              item_A 0 _ (io_entry item_A 3 false 60)
              eq_refl H0 Hall Hlen eq_refl eq_refl) as (Hv & Hc & _).
  split; [exact Hv | exact Hc].
Defined.

Lemma pending_poll_lapses_witness :
  let polling :=
    (Handle.io_callback false false scrolled_root two_mounted
       [io_entry item_A 1 false 900]).1 in
  let batch := [io_entry item_B 2 true 140] in
  let h1 := (Handle.io_callback false false scrolled_root polling batch).1 in
  Utils.pending (Handle.requestSync polling) = true /\
  Handle.viewedCount h1 <> 0 /\
  Handle.requestSync h1 = Handle.requestSync polling /\
  Handle.poll false false [scrolled_root; scrolled_root] h1
    = (Handle.set_requestSync (Utils.cancel (Handle.requestSync h1)) h1, []).
Proof.
  cbv zeta.
  assert (Hc : Handle.viewedCount
    (Handle.io_callback false false scrolled_root
       (Handle.io_callback false false scrolled_root two_mounted
          [io_entry item_A 1 false 900]).1
       [io_entry item_B 2 true 140]).1 <> 0)
    by (vm_compute; discriminate).
  split; [reflexivity|]. split; [exact Hc|].
  destruct (pending_poll_lapses false false scrolled_root
              (Handle.io_callback false false scrolled_root two_mounted
                 [io_entry item_A 1 false 900]).1
              [io_entry item_B 2 true 140] eq_refl Hc) as [Hrs Hpoll].
  split; [exact Hrs | exact (Hpoll scrolled_root [scrolled_root])].
Defined.

Lemma scrollTo_then_sync_witness :
  let assigned := {| scrollLeft := 0; scrollTop := 40 |} in
  horizontal sample_props = false /\
  scrollTo sample_props (sample_store 80) 2 (Some scrolled_root) = Some assigned /\
  scroll_of sample_props assigned = scroll_of sample_props assigned /\
  Handle.syncViewportToScrollPosition false false assigned = HANDLE_SCROLL 40 /\
  Handle.syncViewportToScrollPosition false true assigned = HANDLE_SCROLL (-40).
Proof.
  cbv zeta. split; [reflexivity|]. split; [reflexivity|]. split; [reflexivity|].
  split.
  - exact (proj1 (scrollTo_then_sync sample_props (sample_store 80) false false 2
                    scrolled_root {| scrollLeft := 0; scrollTop := 40 |}
                    {| scrollLeft := 0; scrollTop := 40 |}
                    eq_refl eq_refl eq_refl)).
  - exact (proj1 (scrollTo_then_sync sample_props (sample_store 80) false true 2
                    scrolled_root {| scrollLeft := 0; scrollTop := 40 |}
                    {| scrollLeft := 0; scrollTop := 40 |}
                    eq_refl eq_refl eq_refl)).
Defined.
